(** * Gonfiguration: a text-based key=value configuration store

  Shallow embedding of [gonfiguration.go] (the current version of the
  package: [New], [LoadFromPath], [Reload], the typed getters, the
  mutators and [Dispose]) and the properties of its behaviour.

  Modelling decisions.
  - A Go [string] is a sequence of bytes: Rocq's [string].
  - [map[string]string] is a [gmap string string]; the field may be [nil],
    hence [option].  A [nil] slice and an empty slice are both the empty
    list.
  - A method's receiver is the struct its (non-nil) pointer points to; every
    method returns the struct after the call next to its Go results.  The
    [g == nil] disjunct of the guards concerns a nil receiver, which has no
    struct to model.
  - Go's [error] is [option error], [None] being [nil].
  - The operating system enters through [ReadLines]: [None] when [os.Open]
    fails, otherwise the lines [bufio.Scanner] yields for the file.
  - [strings.ToLower] (Unicode tables) and the empty-separator case of
    [strings.Split] (UTF-8 decoding) are parameters of the development;
    [strings.Split] with a separator, [strings.Join], [strings.HasPrefix],
    [strings.Contains] and [strconv.Atoi] are written out.
  - The two earlier versions of the package that the source keeps are
    embedded in the modules [V1] and [V2]; there a write to a nil map is a
    panic, which the result type [outcome] records. *)

From Stdlib Require Import ZArith Ascii String List Lia.
From stdpp Require Import base option strings list gmap fin_maps.

Local Open Scope Z_scope.

(** ** The Go standard library functions the package calls *)

Module GoStrings.

(** [strings.HasPrefix(s, prefix)]. *)
Definition HasPrefix (s pre : string) : bool := String.prefix pre s.

(** [strings.Contains(s, substr)]: [substr] occurs at some offset. *)
Fixpoint Contains (s substr : string) : bool :=
  String.prefix substr s ||
  match s with
  | EmptyString => false
  | String _ rest => Contains rest substr
  end.

(** [strings.Join(elems, sep)]. *)
Definition Join (elems : list string) (sep : string) : string :=
  String.concat sep elems.

(** The loop of [genSplit] for a non-empty separator: the leftmost
    occurrence of [sep] closes the current piece and its bytes are skipped
    ([skip] counts the bytes of the occurrence still to drop). *)
Fixpoint splitLoop (sep : string) (skip : nat) (cur : string) (s : string)
  : list string :=
  match s with
  | EmptyString => [cur]
  | String c rest =>
      match skip with
      | S k => splitLoop sep k cur rest
      | O =>
          if String.prefix sep s
          then cur :: splitLoop sep (Nat.pred (String.length sep)) EmptyString rest
          else splitLoop sep O (cur +:+ String c EmptyString) rest
      end
  end.

(** [strings.Split(s, sep)]; [explode] is what Go does for an empty [sep]
    (one piece per UTF-8 sequence). *)
Definition Split (explode : string → list string) (s sep : string)
  : list string :=
  if String.eqb sep EmptyString then explode s else splitLoop sep O EmptyString s.

(** The ASCII path of [strings.ToLower]: what Go computes for a string
    without bytes above 0x7F. *)
Definition lowerByte (c : ascii) : ascii :=
  let n := N_of_ascii c in
  if ((65 <=? n) && (n <=? 90))%N then ascii_of_N (n + 32) else c.

Fixpoint ToLowerASCII (s : string) : string :=
  match s with
  | EmptyString => EmptyString
  | String c rest => String (lowerByte c) (ToLowerASCII rest)
  end.

(** [explode] on a string of ASCII bytes: one piece per byte. *)
Fixpoint explodeASCII (s : string) : list string :=
  match s with
  | EmptyString => []
  | String c rest => String c EmptyString :: explodeASCII rest
  end.

End GoStrings.

Module GoStrconv.

Inductive numError := ErrSyntax | ErrRange.

Definition byteVal (c : ascii) : Z := Z.of_N (N_of_ascii c).

Definition wrap64 (z : Z) : Z := z mod 2 ^ 64.

(** Conversion to a signed integer of [bits] bits (two's complement). *)
Definition toSigned (bits : Z) (z : Z) : Z :=
  (z + 2 ^ (bits - 1)) mod 2 ^ bits - 2 ^ (bits - 1).

Definition maxUint64 : Z := 2 ^ 64 - 1.

(** [cutoff = maxUint64/10 + 1]: the smallest [n] with [n*10 > maxUint64]. *)
Definition cutoff10 : Z := maxUint64 / 10 + 1.

(** The [switch] of [ParseUint] that turns a byte into a digit value. *)
Definition digitOf (c : ascii) : option Z :=
  let b := byteVal c in
  let lo := Z.lor b 32 in
  if (48 <=? b) && (b <=? 57) then Some (b - 48)
  else if (97 <=? lo) && (lo <=? 122) then Some (lo - 97 + 10)
  else None.

(** The digit loop of [ParseUint] in base 10. *)
Fixpoint parseUintLoop (maxVal n : Z) (s : string) : Z * option numError :=
  match s with
  | EmptyString => (n, None)
  | String c rest =>
      match digitOf c with
      | None => (0, Some ErrSyntax)
      | Some d =>
          if 10 <=? d then (0, Some ErrSyntax)
          else if cutoff10 <=? n then (maxVal, Some ErrRange)
          else
            let n10 := wrap64 (n * 10) in
            let n1 := wrap64 (n10 + d) in
            if (n1 <? n10) || (maxVal <? n1) then (maxVal, Some ErrRange)
            else parseUintLoop maxVal n1 rest
      end
  end.

(** [ParseUint(s, 10, bitSize)] with [bitSize] already resolved. *)
Definition ParseUint (bitSize : Z) (s : string) : Z * option numError :=
  match s with
  | EmptyString => (0, Some ErrSyntax)
  | _ => parseUintLoop (wrap64 (wrap64 (2 ^ bitSize) - 1)) 0 s
  end.

(** [ParseInt(s, 10, 0)] on a platform whose [int] has [intSize] bits. *)
Definition ParseInt (intSize : Z) (s : string) : Z * option numError :=
  match s with
  | EmptyString => (0, Some ErrSyntax)
  | String c rest =>
      let neg := Ascii.eqb c "-" in
      let digits := if Ascii.eqb c "+" || neg then rest else s in
      match ParseUint intSize digits with
      | (_, Some ErrSyntax) => (0, Some ErrSyntax)
      | (un, _) =>
          let cutoff := 2 ^ (intSize - 1) in
          if negb neg && (cutoff <=? un) then (cutoff - 1, Some ErrRange)
          else if neg && (cutoff <? un) then (- cutoff, Some ErrRange)
          else (if neg then - un else un, None)
      end
  end.

(** The fast path of [Atoi]: digits accumulated in an [int]. *)
Fixpoint atoiDigits (intSize : Z) (n : Z) (s : string) : Z * option numError :=
  match s with
  | EmptyString => (n, None)
  | String ch rest =>
      let d := (byteVal ch - 48) mod 256 in
      if 9 <? d then (0, Some ErrSyntax)
      else atoiDigits intSize (toSigned intSize (n * 10 + d)) rest
  end.

(** [strconv.Atoi(s)]. *)
Definition Atoi (intSize : Z) (s : string) : Z * option numError :=
  let sLen := Z.of_nat (String.length s) in
  if ((intSize =? 32) && ((0 <? sLen) && (sLen <? 10))) ||
     ((intSize =? 64) && ((0 <? sLen) && (sLen <? 19)))
  then
    match s with
    | EmptyString => (0, Some ErrSyntax)
    | String c rest =>
        let signed := Ascii.eqb c "-" || Ascii.eqb c "+" in
        let digits := if signed then rest else s in
        if signed && (Z.of_nat (String.length digits) <? 1)
        then (0, Some ErrSyntax)
        else
          match atoiDigits intSize 0 digits with
          | (n, None) =>
              (if Ascii.eqb c "-" then toSigned intSize (- n) else n, None)
          | r => r
          end
    end
  else
    let '(i64, err) := ParseInt intSize s in
    (toSigned intSize i64, err).

(** The text form of a decimal integer: an optional sign, then one or
    more digits. *)
Definition isDigit (c : ascii) : bool :=
  (48 <=? byteVal c) && (byteVal c <=? 57).

Fixpoint allDigits (s : string) : bool :=
  match s with
  | EmptyString => true
  | String c rest => isDigit c && allDigits rest
  end.

Definition isDecimal (s : string) : bool :=
  match s with
  | EmptyString => false
  | String c rest =>
      if Ascii.eqb c "-" || Ascii.eqb c "+"
      then negb (String.eqb rest EmptyString) && allDigits rest
      else allDigits s
  end.

(** The number a run of decimal digits denotes, continuing from [n]. *)
Fixpoint digitsValue (n : Z) (s : string) : Z :=
  match s with
  | EmptyString => n
  | String c rest => digitsValue (n * 10 + (byteVal c - 48)) rest
  end.

(** The number a decimal text denotes. *)
Definition decimalValue (s : string) : Z :=
  match s with
  | EmptyString => 0
  | String c rest =>
      if Ascii.eqb c "-" then - digitsValue 0 rest
      else if Ascii.eqb c "+" then digitsValue 0 rest
      else digitsValue 0 s
  end.

End GoStrconv.

Import GoStrings GoStrconv.

(** ** The store *)

(** The package's error values. *)
Inductive error :=
| errorGonfigurationNil
| errorCantOpenFile
| errorDuplicatedEntry
| errorKeyNotFound.

(** [type Gonfiguration struct]. *)
Record Gonfiguration := mkGonfiguration {
  GonfigurationValues : option (gmap string string);
  ValidateConfigLine : option (string → bool);
  Path : string
}.

Definition setValues (g : Gonfiguration) (m : gmap string string) : Gonfiguration :=
  mkGonfiguration (Some m) (ValidateConfigLine g) (Path g).

Definition setPath (g : Gonfiguration) (path : string) : Gonfiguration :=
  mkGonfiguration (GonfigurationValues g) (ValidateConfigLine g) path.

(** ** The earlier versions of the package

    The source keeps two earlier versions next to the current one: the
    package [configuration] ([Configuration], module [V1] below) and the
    first [gonfiguration] ([LoadGonfiguration], module [V2]).  Their [Reload]
    writes to the map without a nil guard; Go panics on a write to a nil map,
    so a call ends in [Done] with its results or in [Panic]. *)

Inductive outcome (A : Type) :=
| Done (a : A)
| Panic.
Arguments Done {A} a.
Arguments Panic {A}.

Module V2.

Inductive error :=
| errorGonfigurationNil
| errorCantOpenFile
| errorMapContainsEntry
| errorKeyNotFound.

Record Gonfiguration := mkGonfiguration {
  GonfigurationValues : option (gmap string string);
  ValidateConfigLine : option (string → bool);
  FilePath : string
}.

Definition setValues (c : Gonfiguration) (m : gmap string string) : Gonfiguration :=
  mkGonfiguration (Some m) (ValidateConfigLine c) (FilePath c).

Section Store.

Variable ToLower : string → string.
Variable explode : string → list string.
Variable intSize : Z.
Variable ReadLines : string → option (list string).

(** [isGonfigurationLine]. *)
Definition isGonfigurationLine (c : Gonfiguration) (line : string) : bool :=
  match ValidateConfigLine c with
  | Some validate => validate line
  | None =>
      negb (HasPrefix line "#") && negb (String.eqb line EmptyString) &&
      GoStrings.Contains line "="
  end.

(** [ContainsKey]. *)
Definition ContainsKey (c : Gonfiguration) (key : string) : bool :=
  match GonfigurationValues c with
  | None => false
  | Some m => bool_decide (is_Some (m !! ToLower key))
  end.

(** The [range] loop of [Clear]. *)
Definition clearLoop (ks : list string) (m : gmap string string)
  : gmap string string :=
  foldl (λ acc key,
           if bool_decide (is_Some (acc !! key))
           then delete (ToLower key) acc else acc) m ks.

(** [Clear]. *)
Definition Clear (c : Gonfiguration) : Gonfiguration * option error :=
  match GonfigurationValues c with
  | None => (c, Some errorGonfigurationNil)
  | Some m => (setValues c (clearLoop (map_to_list m).*1 m), None)
  end.

(** The scanner loop of [Reload]. *)
Fixpoint scanLines (c : Gonfiguration) (lines : list string)
  : outcome (Gonfiguration * option error) :=
  match lines with
  | [] => Done (c, None)
  | line :: rest =>
      if isGonfigurationLine c line then
        let code := default EmptyString (Split explode line "=" !! 0%nat) in
        let value := drop 1 (Split explode line "=") in
        if ContainsKey c (ToLower code) then Done (c, Some errorMapContainsEntry)
        else
          match GonfigurationValues c with
          | None => Panic
          | Some m =>
              scanLines (setValues c (<[ToLower code := Join value "="]> m)) rest
          end
      else scanLines c rest
  end.

(** [Reload]. *)
Definition Reload (c : Gonfiguration) : outcome (Gonfiguration * option error) :=
  let '(c, _) := Clear c in
  match ReadLines (FilePath c) with
  | None => Done (c, Some errorCantOpenFile)
  | Some lines => scanLines c lines
  end.


(** [GetConfigParamAsString]. *)
Definition GetConfigParamAsString (c : Gonfiguration) (key def : string)
  : string * option error :=
  match GonfigurationValues c with
  | None => (EmptyString, Some errorGonfigurationNil)
  | Some m =>
      let val := default EmptyString (m !! ToLower key) in
      if negb (ContainsKey c (ToLower key)) then (def, Some errorKeyNotFound)
      else (val, None)
  end.

(** [GetConfigParamAsInt]. *)
Definition GetConfigParamAsInt (c : Gonfiguration) (key : string) (def : Z)
  : Z * option error :=
  match GonfigurationValues c with
  | None => (0, Some errorGonfigurationNil)
  | Some m =>
      let val := default EmptyString (m !! ToLower key) in
      if negb (ContainsKey c (ToLower key)) then (def, Some errorKeyNotFound)
      else let '(intval, _) := Atoi intSize val in (intval, None)
  end.

(** [GetConfigParamAsBool]. *)
Definition GetConfigParamAsBool (c : Gonfiguration) (key : string) (def : bool)
  : bool * option error :=
  match GonfigurationValues c with
  | None => (false, Some errorGonfigurationNil)
  | Some m =>
      let val := default EmptyString (m !! ToLower key) in
      if negb (ContainsKey c (ToLower key)) then (def, Some errorKeyNotFound)
      else (String.eqb val "true" || String.eqb val "1", None)
  end.

(** [AddNewKeyValueEntry]. *)
Definition AddNewKeyValueEntry (c : Gonfiguration) (key value : string)
  : Gonfiguration * option error :=
  match GonfigurationValues c with
  | None => (c, Some errorGonfigurationNil)
  | Some m =>
      if negb (ContainsKey c (ToLower key))
      then (setValues c (<[ToLower key := value]> m), None)
      else (c, Some errorMapContainsEntry)
  end.

(** [UpdateOrAddEntry]. *)
Definition UpdateOrAddEntry (c : Gonfiguration) (key value : string)
  : Gonfiguration * option error :=
  match GonfigurationValues c with
  | None => (c, Some errorGonfigurationNil)
  | Some m => (setValues c (<[ToLower key := value]> m), None)
  end.

(** [DeleteEntry]. *)
Definition DeleteEntry (c : Gonfiguration) (key : string)
  : Gonfiguration * option error :=
  match GonfigurationValues c with
  | None => (c, Some errorGonfigurationNil)
  | Some m => (setValues c (delete (ToLower key) m), None)
  end.

(** [GetGonfigurationLen]. *)
Definition GetGonfigurationLen (c : Gonfiguration) : Z * option error :=
  match GonfigurationValues c with
  | None => (0, Some errorGonfigurationNil)
  | Some m => (Z.of_nat (size m), None)
  end.

(** [ChangePathAndReload]. *)
Definition ChangePathAndReload (c : Gonfiguration) (newPath : string)
  : outcome (Gonfiguration * option error) :=
  Reload (mkGonfiguration (GonfigurationValues c) (ValidateConfigLine c) newPath).

(** [Dispose]. *)
Definition Dispose (c : Gonfiguration) : Gonfiguration :=
  mkGonfiguration None None EmptyString.

(** [GetMap]. *)
Definition GetMap (c : Gonfiguration) : option (gmap string string) :=
  GonfigurationValues c.

End Store.

End V2.

(** A store and an error of [V2] as the current version has them. *)
Definition V2_toCurrent (c : V2.Gonfiguration) : Gonfiguration :=
  mkGonfiguration (V2.GonfigurationValues c) (V2.ValidateConfigLine c) (V2.FilePath c).

Definition V2_errorToCurrent (e : V2.error) : error :=
  match e with
  | V2.errorGonfigurationNil => errorGonfigurationNil
  | V2.errorCantOpenFile => errorCantOpenFile
  | V2.errorMapContainsEntry => errorDuplicatedEntry
  | V2.errorKeyNotFound => errorKeyNotFound
  end.

Module V1.

Inductive error :=
| errorConfigurationNil
| errorCantOpenFile
| errorMapContainsEntry
| errorKeyNotFound.

Record Configuration := mkConfiguration {
  ConfigurationValues : option (gmap string string);
  ValidateConfigLine : option (string → bool);
  FilePath : string
}.

Definition setValues (c : Configuration) (m : gmap string string) : Configuration :=
  mkConfiguration (Some m) (ValidateConfigLine c) (FilePath c).

Section Store.

Variable ToLower : string → string.
Variable explode : string → list string.
Variable ReadLines : string → option (list string).

(** [isConfigurationLine]. *)
Definition isConfigurationLine (c : Configuration) (line : string) : bool :=
  match ValidateConfigLine c with
  | Some validate => validate line
  | None =>
      negb (HasPrefix line "#") && negb (String.eqb line EmptyString) &&
      GoStrings.Contains line "="
  end.

(** [ContainsKey]. *)
Definition ContainsKey (c : Configuration) (key : string) : bool :=
  match ConfigurationValues c with
  | None => false
  | Some m => bool_decide (is_Some (m !! ToLower key))
  end.

(** [GetConfigParamAsString]. *)
Definition GetConfigParamAsString (c : Configuration) (key def : string)
  : string * option error :=
  match ConfigurationValues c with
  | None => (EmptyString, Some errorConfigurationNil)
  | Some m =>
      let val := default EmptyString (m !! ToLower key) in
      if negb (ContainsKey c (ToLower key)) then (def, Some errorKeyNotFound)
      else (val, None)
  end.

(** The [range] loop of [Clear]. *)
Definition clearLoop (ks : list string) (m : gmap string string)
  : gmap string string :=
  foldl (λ acc key,
           if bool_decide (is_Some (acc !! key))
           then delete (ToLower key) acc else acc) m ks.

(** [Clear]. *)
Definition Clear (c : Configuration) : Configuration * option error :=
  match ConfigurationValues c with
  | None => (c, Some errorConfigurationNil)
  | Some m => (setValues c (clearLoop (map_to_list m).*1 m), None)
  end.

(** The scanner loop of [Reload]: every accepted line is written to the
    map, whether its key is there or not. *)
Fixpoint scanLines (c : Configuration) (lines : list string)
  : outcome (Configuration * option error) :=
  match lines with
  | [] => Done (c, None)
  | line :: rest =>
      if isConfigurationLine c line then
        let code := default EmptyString (Split explode line "=" !! 0%nat) in
        let value := drop 1 (Split explode line "=") in
        match ConfigurationValues c with
        | None => Panic
        | Some m =>
            scanLines (setValues c (<[ToLower code := Join value "="]> m)) rest
        end
      else scanLines c rest
  end.

(** [Reload]. *)
Definition Reload (c : Configuration) : outcome (Configuration * option error) :=
  let '(c, _) := Clear c in
  match ReadLines (FilePath c) with
  | None => Done (c, Some errorCantOpenFile)
  | Some lines => scanLines c lines
  end.

(** [LoadConfiguration]. *)
Definition LoadConfiguration (c : Configuration) (path : string)
    (validateFunction : option (string → bool))
  : outcome (Configuration * option Configuration * option error) :=
  let newConfiguration := mkConfiguration (Some ∅) validateFunction path in
  match Reload c with
  | Panic => Panic
  | Done (c, Some reloadError) => Done (c, None, Some reloadError)
  | Done (c, None) => Done (c, Some newConfiguration, None)
  end.

(** [ChangePathAndReload]. *)
Definition ChangePathAndReload (c : Configuration) (newPath : string)
  : outcome (Configuration * option error) :=
  Reload (mkConfiguration (ConfigurationValues c) (ValidateConfigLine c) newPath).

End Store.

End V1.


(** ** Sample files

    The configuration file of the package's README and two small files, as a
    file system for the examples. *)
Definition sampleFiles (path : string) : option (list string) :=
  if String.eqb path "config.ini" then
    Some [ "# MySQL (This is a comment, gonfiguration ignore this lines.)";
           "mysql.host=localhost";
           "mysql.port=3306";
           "mysql.allowed.address=127.0.0.1,localhost,10.0.0.1";
           "mysql.allowed.ports=3306,1232,1111,9000";
           EmptyString;
           "# TCP (This is a comment, gonfiguration ignore this lines.)";
           "tcp.ip=127.0.0.1";
           "tcp.port=30000";
           EmptyString;
           "#Variables (This is a comment, gonfiguration ignore this lines.)";
           "welcome.message=You can use spaces, =, @ or what you want here.";
           "chat.enabled=1" ]
  else if String.eqb path "welcome.ini" then Some [ "welcome.message=a=b=c" ]
  else if String.eqb path "dup.ini" then Some [ "a=1"; "b=2"; "A=3"; "c=4" ]
  else None.

(** The same files with their lines in reverse order. *)
Definition sampleFilesReversed (path : string) : option (list string) :=
  reverse <$> sampleFiles path.

Section Store.

(** [strings.ToLower]. *)
Variable ToLower : string → string.
(** [strings.Split] with the empty separator. *)
Variable explode : string → list string.
(** The width of Go's [int] on the platform: 32 or 64. *)
Variable intSize : Z.
(** The file system: the lines the scanner yields for a path that opens. *)
Variable ReadLines : string → option (list string).

(** [isGonfigurationLine]. *)
Definition isGonfigurationLine (g : Gonfiguration) (line : string) : bool :=
  match ValidateConfigLine g with
  | Some validate => validate line
  | None =>
      negb (HasPrefix line "#") && negb (String.eqb line EmptyString) &&
      GoStrings.Contains line "="
  end.

(** [Contains]. *)
Definition Contains (g : Gonfiguration) (key : string) : bool * option error :=
  match GonfigurationValues g with
  | None => (false, Some errorGonfigurationNil)
  | Some m => (bool_decide (is_Some (m !! ToLower key)), None)
  end.

(** [AddNew]. *)
Definition AddNew (g : Gonfiguration) (key value : string)
  : Gonfiguration * option error :=
  match GonfigurationValues g with
  | None => (g, Some errorGonfigurationNil)
  | Some m =>
      let '(contains, _) := Contains g key in
      if contains then (g, Some errorDuplicatedEntry)
      else (setValues g (<[ToLower key := value]> m), None)
  end.

(** [Update]. *)
Definition Update (g : Gonfiguration) (key value : string)
  : Gonfiguration * option error :=
  match GonfigurationValues g with
  | None => (g, Some errorGonfigurationNil)
  | Some m => (setValues g (<[ToLower key := value]> m), None)
  end.

(** [Delete]. *)
Definition Delete (g : Gonfiguration) (key : string)
  : Gonfiguration * option error :=
  match GonfigurationValues g with
  | None => (g, Some errorGonfigurationNil)
  | Some m =>
      let '(contains, _) := Contains g key in
      if negb contains then (g, Some errorKeyNotFound)
      else (setValues g (delete (ToLower key) m), None)
  end.

(** The [range] loop of [Clear] over the keys in the order [ks]: a key
    deleted before the iteration reaches it is not produced. *)
Definition clearLoop (ks : list string) (m : gmap string string)
  : gmap string string :=
  foldl (λ acc key,
           if bool_decide (is_Some (acc !! key))
           then delete (ToLower key) acc else acc) m ks.

(** [Clear]; Go leaves the iteration order open, the model takes the
    order of [map_to_list]. *)
Definition Clear (g : Gonfiguration) : Gonfiguration * option error :=
  match GonfigurationValues g with
  | None => (g, Some errorGonfigurationNil)
  | Some m => (setValues g (clearLoop (map_to_list m).*1 m), None)
  end.

(** [Len]. *)
Definition Len (g : Gonfiguration) : Z * option error :=
  match GonfigurationValues g with
  | None => (0, Some errorGonfigurationNil)
  | Some m => (Z.of_nat (size m), None)
  end.

(** [Map]: a pointer to the live map, [None] for the nil pointer. *)
Definition Map (g : Gonfiguration)
  : option (gmap string string) * option error :=
  match GonfigurationValues g with
  | None => (None, Some errorGonfigurationNil)
  | Some m => (Some m, None)
  end.

(** The body of the scanner loop of [LoadFromPath] over the lines left. *)
Fixpoint scanLines (g : Gonfiguration) (lines : list string)
  : Gonfiguration * option error :=
  match lines with
  | [] => (g, None)
  | line :: rest =>
      if isGonfigurationLine g line then
        let key := default EmptyString (Split explode line "=" !! 0%nat) in
        let value := drop 1 (Split explode line "=") in
        let '(contains, _) := Contains g key in
        if contains then (g, Some errorDuplicatedEntry)
        else
          let '(g', _) := AddNew g (ToLower key) (Join value "=") in
          scanLines g' rest
      else scanLines g rest
  end.

(** [LoadFromPath]. *)
Definition LoadFromPath (g : Gonfiguration) (path : string)
  : Gonfiguration * option error :=
  let g := setPath g path in
  match ReadLines path with
  | None => (g, Some errorCantOpenFile)
  | Some lines => scanLines g lines
  end.

(** [New]. *)
Definition New (path : string) (validateFunction : option (string → bool))
  : Gonfiguration * option error :=
  let newGonfiguration := mkGonfiguration (Some ∅) validateFunction path in
  LoadFromPath newGonfiguration path.

(** [Reload]. *)
Definition Reload (g : Gonfiguration) : Gonfiguration * option error :=
  match GonfigurationValues g with
  | None => (g, Some errorGonfigurationNil)
  | Some _ =>
      let '(g, _) := Clear g in
      LoadFromPath g (Path g)
  end.

(** [GetParamAsString]. *)
Definition GetParamAsString (g : Gonfiguration) (key def : string)
  : string * option error :=
  match GonfigurationValues g with
  | None => (EmptyString, Some errorGonfigurationNil)
  | Some m =>
      match m !! ToLower key with
      | None => (def, Some errorKeyNotFound)
      | Some val => (val, None)
      end
  end.

(** [GetParamAsStringArray]. *)
Definition GetParamAsStringArray (g : Gonfiguration) (key def sep : string)
  : list string * option error :=
  match GonfigurationValues g with
  | None => ([], Some errorGonfigurationNil)
  | Some m =>
      match m !! ToLower key with
      | None => (Split explode def sep, Some errorKeyNotFound)
      | Some val => (Split explode val sep, None)
      end
  end.

(** [GetParamAsInt]. *)
Definition GetParamAsInt (g : Gonfiguration) (key : string) (def : Z)
  : Z * option error :=
  match GonfigurationValues g with
  | None => (0, Some errorGonfigurationNil)
  | Some m =>
      match m !! ToLower key with
      | None => (def, Some errorKeyNotFound)
      | Some val => let '(intval, _) := Atoi intSize val in (intval, None)
      end
  end.

(** [GetParamAsIntArray]. *)
Definition GetParamAsIntArray (g : Gonfiguration) (key def sep : string)
  : list Z * option error :=
  match GonfigurationValues g with
  | None => ([], Some errorGonfigurationNil)
  | Some _ =>
      let '(tmp, errorGetStringArray) := GetParamAsStringArray g key def sep in
      (map (λ x, fst (Atoi intSize x)) tmp, errorGetStringArray)
  end.

(** [GetParamAsBool]. *)
Definition GetParamAsBool (g : Gonfiguration) (key : string) (def : bool)
  : bool * option error :=
  match GonfigurationValues g with
  | None => (false, Some errorGonfigurationNil)
  | Some m =>
      match m !! ToLower key with
      | None => (def, Some errorKeyNotFound)
      | Some val => (String.eqb val "true" || String.eqb val "1", None)
      end
  end.

(** [Dispose]. *)
Definition Dispose (g : Gonfiguration) : Gonfiguration :=
  let '(g, _) := Clear g in
  mkGonfiguration None None EmptyString.


(** *** The operations as a transition system *)

(** One constructor per exported function that takes a store. *)
Inductive op :=
| OpLoadFromPath (path : string)
| OpReload
| OpGetParamAsString (key def : string)
| OpGetParamAsStringArray (key def sep : string)
| OpGetParamAsInt (key : string) (def : Z)
| OpGetParamAsIntArray (key def sep : string)
| OpGetParamAsBool (key : string) (def : bool)
| OpAddNew (key value : string)
| OpUpdate (key value : string)
| OpDelete (key : string)
| OpContains (key : string)
| OpClear
| OpLen
| OpMap
| OpDispose.

(** What a call hands back to its caller. *)
Inductive result :=
| RetNothing
| RetError (e : option error)
| RetString (s : string) (e : option error)
| RetStrings (l : list string) (e : option error)
| RetInt (n : Z) (e : option error)
| RetInts (l : list Z) (e : option error)
| RetBool (b : bool) (e : option error)
| RetMap (p : option (gmap string string)) (e : option error).

Definition exec (o : op) (g : Gonfiguration) : Gonfiguration * result :=
  match o with
  | OpLoadFromPath path => let '(g', e) := LoadFromPath g path in (g', RetError e)
  | OpReload => let '(g', e) := Reload g in (g', RetError e)
  | OpGetParamAsString key def =>
      let '(s, e) := GetParamAsString g key def in (g, RetString s e)
  | OpGetParamAsStringArray key def sep =>
      let '(l, e) := GetParamAsStringArray g key def sep in (g, RetStrings l e)
  | OpGetParamAsInt key def =>
      let '(n, e) := GetParamAsInt g key def in (g, RetInt n e)
  | OpGetParamAsIntArray key def sep =>
      let '(l, e) := GetParamAsIntArray g key def sep in (g, RetInts l e)
  | OpGetParamAsBool key def =>
      let '(b, e) := GetParamAsBool g key def in (g, RetBool b e)
  | OpAddNew key value => let '(g', e) := AddNew g key value in (g', RetError e)
  | OpUpdate key value => let '(g', e) := Update g key value in (g', RetError e)
  | OpDelete key => let '(g', e) := Delete g key in (g', RetError e)
  | OpContains key => let '(b, e) := Contains g key in (g, RetBool b e)
  | OpClear => let '(g', e) := Clear g in (g', RetError e)
  | OpLen => let '(n, e) := Len g in (g, RetInt n e)
  | OpMap => let '(p, e) := Map g in (g, RetMap p e)
  | OpDispose => (Dispose g, RetNothing)
  end.

(** The store after a sequence of calls. *)
Definition run (os : list op) (g : Gonfiguration) : Gonfiguration :=
  foldl (λ g o, fst (exec o g)) g os.

(** The zero value of each result next to [errorGonfigurationNil], as the
    nil guard of a guarded operation returns it. *)
Definition nilStoreResult (o : op) : result :=
  match o with
  | OpLoadFromPath _ | OpReload | OpAddNew _ _ | OpUpdate _ _ | OpDelete _
  | OpClear => RetError (Some errorGonfigurationNil)
  | OpGetParamAsString _ _ => RetString EmptyString (Some errorGonfigurationNil)
  | OpGetParamAsStringArray _ _ _ => RetStrings [] (Some errorGonfigurationNil)
  | OpGetParamAsInt _ _ | OpLen => RetInt 0 (Some errorGonfigurationNil)
  | OpGetParamAsIntArray _ _ _ => RetInts [] (Some errorGonfigurationNil)
  | OpGetParamAsBool _ _ | OpContains _ => RetBool false (Some errorGonfigurationNil)
  | OpMap => RetMap None (Some errorGonfigurationNil)
  | OpDispose => RetNothing
  end.

(** The operations the nil guard protects: all but [LoadFromPath], which
    has no guard, and [Dispose], which returns nothing. *)
Definition guarded (o : op) : bool :=
  match o with
  | OpLoadFromPath _ | OpDispose => false
  | _ => true
  end.

(** *** Vocabulary of the properties *)

(** A store whose map was made and not released. *)
Definition initialized (g : Gonfiguration) : Prop :=
  is_Some (GonfigurationValues g).

Definition disposed (g : Gonfiguration) : Prop :=
  GonfigurationValues g = None.

(** Every key of a map is its own lowercase form. *)
Definition lowerKeys (m : gmap string string) : Prop :=
  ∀ key, is_Some (m !! key) → ToLower key = key.

(** The same for the map of a store, when it has one. *)
Definition keysLower (g : Gonfiguration) : Prop :=
  ∀ m key, GonfigurationValues g = Some m → is_Some (m !! key) →
           ToLower key = key.

(** The bytes of a line before its first '='. *)
Fixpoint beforeFirstEq (line : string) : string :=
  match line with
  | EmptyString => EmptyString
  | String c rest =>
      if Ascii.eqb c "=" then EmptyString else String c (beforeFirstEq rest)
  end.

(** The bytes of a line after its first '=' (nothing without one). *)
Fixpoint afterFirstEq (line : string) : string :=
  match line with
  | EmptyString => EmptyString
  | String c rest => if Ascii.eqb c "=" then rest else afterFirstEq rest
  end.

(** Does the byte '=' occur in the string? *)
Fixpoint hasEq (s : string) : bool :=
  match s with
  | EmptyString => false
  | String c rest => Ascii.eqb c "=" || hasEq rest
  end.

Definition lineKey (line : string) : string := ToLower (beforeFirstEq line).
Definition lineValue (line : string) : string := afterFirstEq line.

(** The entries the accepted lines stand for, in file order. *)
Fixpoint entries (g : Gonfiguration) (lines : list string)
  : list (string * string) :=
  match lines with
  | [] => []
  | line :: rest =>
      if isGonfigurationLine g line
      then (lineKey line, lineValue line) :: entries g rest
      else entries g rest
  end.

(** [Reload] as the specification words it: [Clear] followed by
    [LoadFromPath] on the stored path. *)
Definition Reload_spec (g : Gonfiguration) : Gonfiguration * option error :=
  let '(g1, _) := Clear g in LoadFromPath g1 (Path g1).

(** *** Assumption on the library

    [strings.ToLower] leaves a lowercased string alone. *)
Hypothesis ToLower_idem : ∀ s, ToLower (ToLower s) = ToLower s.

(** *** Splitting a line at '=' *)

Lemma splitLoop_not_nil sep skip cur s : splitLoop sep skip cur s ≠ [].
Proof.
  revert skip cur. induction s as [|c s IH]; intros skip cur; [done|].
  cbn [splitLoop]. destruct skip; [|apply IH].
  destruct (String.prefix sep (String c s)); [done|apply IH].
Qed.

Lemma append_String c (s t : string) : String c s +:+ t = String c (s +:+ t).
Proof. reflexivity. Qed.

Lemma append_empty_r (s : string) : s +:+ EmptyString = s.
Proof. induction s as [|c s IH]; [done|]. by rewrite append_String, IH. Qed.

Lemma append_snoc (cur : string) c s :
  (cur +:+ String c EmptyString) +:+ s = cur +:+ String c s.
Proof. induction cur as [|a cur IH]; [done|]. by rewrite !append_String, IH. Qed.

Lemma prefix_eq_char c s :
  String.prefix "=" (String c s) = Ascii.eqb c "=".
Proof.
  cbn [String.prefix]. destruct (ascii_dec "=" c) as [<-|Hne].
  - by destruct s.
  - symmetry. apply Ascii.eqb_neq. congruence.
Qed.

Lemma splitLoop_eq_cons c s cur :
  splitLoop "=" 0 cur (String c s) =
  if Ascii.eqb c "=" then cur :: splitLoop "=" 0 EmptyString s
  else splitLoop "=" 0 (cur +:+ String c EmptyString) s.
Proof.
  change (splitLoop "=" 0 cur (String c s)) with
    (if String.prefix "=" (String c s)
     then cur :: splitLoop "=" 0 EmptyString s
     else splitLoop "=" 0 (cur +:+ String c EmptyString) s).
  by rewrite prefix_eq_char.
Qed.

Lemma Join_cons x l sep :
  l ≠ [] → Join (x :: l) sep = x +:+ sep +:+ Join l sep.
Proof. destruct l; [done|]. reflexivity. Qed.

(** Joining the pieces gives the text back. *)
Lemma Join_splitLoop_eq s cur :
  Join (splitLoop "=" 0 cur s) "=" = cur +:+ s.
Proof.
  revert cur. induction s as [|c s IH]; intros cur.
  - simpl. by rewrite append_empty_r.
  - rewrite splitLoop_eq_cons. destruct (Ascii.eqb c "=") eqn:Hc.
    + apply Ascii.eqb_eq in Hc as ->.
      rewrite Join_cons by apply splitLoop_not_nil.
      by rewrite IH.
    + by rewrite IH, append_snoc.
Qed.

Lemma splitLoop_eq_head s cur :
  default EmptyString (splitLoop "=" 0 cur s !! 0%nat) = cur +:+ beforeFirstEq s.
Proof.
  revert cur. induction s as [|c s IH]; intros cur.
  - simpl. by rewrite append_empty_r.
  - rewrite splitLoop_eq_cons. simpl. destruct (Ascii.eqb c "=").
    + simpl. by rewrite append_empty_r.
    + by rewrite IH, append_snoc.
Qed.

Lemma splitLoop_eq_tail s cur :
  Join (drop 1 (splitLoop "=" 0 cur s)) "=" = afterFirstEq s.
Proof.
  revert cur. induction s as [|c s IH]; intros cur; [done|].
  rewrite splitLoop_eq_cons. simpl. destruct (Ascii.eqb c "=").
  - simpl. rewrite drop_0. apply (Join_splitLoop_eq s EmptyString).
  - apply IH.
Qed.

(** The key the loader takes from a line. *)
Lemma Split_key line :
  default EmptyString (Split explode line "=" !! 0%nat) = beforeFirstEq line.
Proof. apply (splitLoop_eq_head line EmptyString). Qed.

(** The value the loader takes from a line. *)
Lemma Split_value line :
  Join (drop 1 (Split explode line "=")) "=" = afterFirstEq line.
Proof. apply (splitLoop_eq_tail line EmptyString). Qed.

Lemma beforeFirstEq_no_eq line : hasEq (beforeFirstEq line) = false.
Proof.
  induction line as [|c s IH]; simpl; [done|].
  destruct (Ascii.eqb c "=") eqn:Hc; simpl; [done|by rewrite Hc].
Qed.

Lemma line_decompose line :
  line = if hasEq line
         then beforeFirstEq line +:+ "=" +:+ afterFirstEq line
         else beforeFirstEq line.
Proof.
  induction line as [|c s IH]; simpl; [done|].
  destruct (Ascii.eqb c "=") eqn:Hc; simpl.
  - by apply Ascii.eqb_eq in Hc as ->.
  - destruct (hasEq s); [rewrite append_String|]; by f_equal.
Qed.

Lemma line_no_eq line :
  hasEq line = false → beforeFirstEq line = line ∧ afterFirstEq line = EmptyString.
Proof.
  induction line as [|c s IH]; simpl; [done|].
  destruct (Ascii.eqb c "="); simpl; [done|].
  intros H. destruct (IH H) as [-> ->]. done.
Qed.

Lemma Contains_eq_hasEq line : GoStrings.Contains line "=" = hasEq line.
Proof.
  induction line as [|c s IH]; [done|].
  change (GoStrings.Contains (String c s) "=") with
    (String.prefix "=" (String c s) || GoStrings.Contains s "=").
  rewrite prefix_eq_char, IH. done.
Qed.

(** *** The loader *)

Lemma setValues_same g m : GonfigurationValues g = Some m → setValues g m = g.
Proof. destruct g; simpl; by intros ->. Qed.

Lemma entries_setValues g m lines : entries (setValues g m) lines = entries g lines.
Proof. induction lines as [|l ls IH]; [done|]. simpl. by rewrite IH. Qed.

(** One turn of the scanner loop on a store whose map is in place. *)
Lemma scanLines_step g m line rest :
  GonfigurationValues g = Some m →
  scanLines g (line :: rest) =
    if isGonfigurationLine g line then
      if bool_decide (is_Some (m !! lineKey line))
      then (g, Some errorDuplicatedEntry)
      else scanLines (setValues g (<[lineKey line := lineValue line]> m)) rest
    else scanLines g rest.
Proof.
  intros Hm. cbn [scanLines]. rewrite Split_key, Split_value.
  destruct (isGonfigurationLine g line); [|done].
  unfold AddNew, Contains. rewrite Hm, ToLower_idem. fold (lineKey line).
  by destruct (bool_decide (is_Some (m !! lineKey line))).
Qed.

(** On a released map the loop stores nothing and reports nothing. *)
Lemma scanLines_nil g lines :
  GonfigurationValues g = None → scanLines g lines = (g, None).
Proof.
  intros Hg. induction lines as [|l ls IH]; [done|].
  cbn [scanLines]. destruct (isGonfigurationLine g l); [|done].
  unfold AddNew, Contains. by rewrite Hg.
Qed.

(** A load without error has stored the entry of every accepted line;
    the keys of these lines were pairwise different and new to the map. *)
Lemma scanLines_success lines : ∀ g m g',
  GonfigurationValues g = Some m →
  scanLines g lines = (g', None) →
  g' = setValues g (list_to_map (entries g lines) ∪ m) ∧
  NoDup (entries g lines).*1 ∧
  (∀ key, key ∈ (entries g lines).*1 → m !! key = None).
Proof.
  induction lines as [|l ls IH]; intros g m g' Hm Hrun.
  - simpl in *. injection Hrun as <-. rewrite (left_id_L ∅ (∪)).
    split; [by rewrite setValues_same|]. split; [constructor|].
    intros key Hk. by apply elem_of_nil in Hk.
  - rewrite (scanLines_step _ m) in Hrun by done. simpl.
    destruct (isGonfigurationLine g l); [|by apply IH].
    destruct (bool_decide_reflect (is_Some (m !! lineKey l))) as [|Hfresh];
      [done|].
    apply eq_None_not_Some in Hfresh.
    apply (IH _ (<[lineKey l := lineValue l]> m)) in Hrun as (-> & Hnd & Hnew);
      [|done].
    rewrite entries_setValues in *.
    assert (lineKey l ∉ (entries g ls).*1) as Hnotin.
    { intros Hin. apply Hnew in Hin. by rewrite lookup_insert_eq in Hin. }
    split; [|split].
    + unfold setValues. simpl. do 2 f_equal.
      rewrite <- insert_union_r by by apply not_elem_of_list_to_map_1.
      by rewrite insert_union_l.
    + simpl. by constructor.
    + simpl. intros key [->|Hin]%elem_of_cons; [done|].
      specialize (Hnew key Hin).
      by apply lookup_insert_None in Hnew as [? _].
Qed.

(** Conversely, lines with pairwise different new keys load without error. *)
Lemma scanLines_complete lines : ∀ g m,
  GonfigurationValues g = Some m →
  NoDup (entries g lines).*1 →
  (∀ key, key ∈ (entries g lines).*1 → m !! key = None) →
  scanLines g lines = (setValues g (list_to_map (entries g lines) ∪ m), None).
Proof.
  induction lines as [|l ls IH]; intros g m Hm Hnd Hnew.
  - simpl. by rewrite (left_id_L ∅ (∪)), setValues_same.
  - rewrite (scanLines_step _ m) by done. simpl in *.
    destruct (isGonfigurationLine g l); [|by apply IH].
    simpl in *. apply NoDup_cons in Hnd as [Hnotin Hnd].
    rewrite bool_decide_eq_false_2; last first.
    { rewrite (Hnew (lineKey l)); [by intros [? ?]|]. apply elem_of_cons; auto. }
    rewrite (IH _ (<[lineKey l := lineValue l]> m)); [| done | | ].
    + rewrite entries_setValues. unfold setValues. simpl. do 3 f_equal.
      rewrite <- insert_union_r by by apply not_elem_of_list_to_map_1.
      by rewrite insert_union_l.
    + by rewrite entries_setValues.
    + rewrite entries_setValues. intros key Hin.
      apply lookup_insert_None. split.
      * apply Hnew. apply elem_of_cons; auto.
      * intros <-. done.
Qed.

(** The loop stops with [errorDuplicatedEntry] at an accepted line whose
    key the map holds. *)
Lemma scanLines_stop pre : ∀ g m g1 m1 bad post,
  GonfigurationValues g = Some m →
  scanLines g pre = (g1, None) →
  GonfigurationValues g1 = Some m1 →
  isGonfigurationLine g bad = true →
  is_Some (m1 !! lineKey bad) →
  scanLines g (pre ++ bad :: post) = (g1, Some errorDuplicatedEntry).
Proof.
  induction pre as [|l ls IH]; intros g m g1 m1 bad post Hm Hrun Hm1 Hacc Hdup.
  - simpl in Hrun. injection Hrun as <-. rewrite Hm in Hm1. injection Hm1 as <-.
    rewrite app_nil_l, (scanLines_step _ m), Hacc by done.
    by rewrite bool_decide_eq_true_2.
  - rewrite <- app_comm_cons, (scanLines_step _ m) by done.
    rewrite (scanLines_step _ m) in Hrun by done.
    destruct (isGonfigurationLine g l); [|by eapply IH].
    destruct (bool_decide (is_Some (m !! lineKey l))); [done|].
    by eapply IH.
Qed.

(** An error of the loop is [errorDuplicatedEntry], raised at the first
    accepted line whose key is taken; the lines before it were loaded. *)
Lemma scanLines_error lines : ∀ g m g' e,
  GonfigurationValues g = Some m →
  scanLines g lines = (g', Some e) →
  e = errorDuplicatedEntry ∧
  ∃ pre bad post m',
    lines = pre ++ bad :: post ∧
    scanLines g pre = (g', None) ∧
    isGonfigurationLine g bad = true ∧
    GonfigurationValues g' = Some m' ∧
    is_Some (m' !! lineKey bad).
Proof.
  induction lines as [|l ls IH]; intros g m g' e Hm Hrun; [done|].
  rewrite (scanLines_step _ m) in Hrun by done.
  destruct (isGonfigurationLine g l) eqn:Hacc.
  - destruct (bool_decide_reflect (is_Some (m !! lineKey l))) as [Hdup|Hfresh].
    + injection Hrun as <- <-. split; [done|].
      by exists [], l, ls, m.
    + apply (IH _ (<[lineKey l := lineValue l]> m)) in Hrun
        as (-> & pre & bad & post & m' & -> & Hpre & Hbad & Hm' & Hdup);
        [|done].
      split; [done|]. exists (l :: pre), bad, post, m'.
      split; [done|]. split; [|done].
      rewrite (scanLines_step _ m), Hacc by done.
      by rewrite bool_decide_eq_false_2.
  - apply (IH _ m) in Hrun
      as (-> & pre & bad & post & m' & -> & Hpre & Hbad & Hm' & Hdup); [|done].
    split; [done|]. exists (l :: pre), bad, post, m'.
    split; [done|]. split; [|done].
    by rewrite (scanLines_step _ m), Hacc.
Qed.

(** Whatever the outcome, the loop only adds entries. *)
Lemma scanLines_grows lines : ∀ g m g' e,
  GonfigurationValues g = Some m →
  scanLines g lines = (g', e) →
  ∃ m', g' = setValues g m' ∧ m ⊆ m'.
Proof.
  induction lines as [|l ls IH]; intros g m g' e Hm Hrun.
  - injection Hrun as <- <-. exists m. by rewrite setValues_same.
  - rewrite (scanLines_step _ m) in Hrun by done.
    destruct (isGonfigurationLine g l); [|by eapply IH].
    destruct (bool_decide_reflect (is_Some (m !! lineKey l))) as [Hdup|Hfresh].
    + injection Hrun as <- <-. exists m. by rewrite setValues_same.
    + apply eq_None_not_Some in Hfresh.
      apply (IH _ (<[lineKey l := lineValue l]> m)) in Hrun as (m' & -> & Hsub);
        [|done].
      exists m'. split; [done|].
      etrans; [|exact Hsub]. by apply insert_subseteq.
Qed.

(** *** [Clear] and the lowercase-key invariant *)

Lemma keysLower_lowerKeys g m :
  GonfigurationValues g = Some m → keysLower g ↔ lowerKeys m.
Proof.
  intros Hm. split.
  - intros H key. by apply H.
  - intros H m' key Hm'. rewrite Hm in Hm'. injection Hm' as <-. apply H.
Qed.

Lemma keysLower_setValues g m : lowerKeys m → keysLower (setValues g m).
Proof. intros H. by apply (keysLower_lowerKeys _ m). Qed.

Lemma keysLower_disposed g : GonfigurationValues g = None → keysLower g.
Proof. intros Hg m key Hm. by rewrite Hg in Hm. Qed.

Lemma lowerKeys_empty : lowerKeys ∅.
Proof. intros key [v Hv]. by rewrite lookup_empty in Hv. Qed.

Lemma lowerKeys_insert m key value :
  lowerKeys m → lowerKeys (<[ToLower key := value]> m).
Proof.
  intros H j [<-|Hj]%lookup_insert_is_Some'; [apply ToLower_idem|by apply H].
Qed.

Lemma lowerKeys_delete m key : lowerKeys m → lowerKeys (delete key m).
Proof. intros H j [_ Hj]%lookup_delete_is_Some. by apply H. Qed.

(** With lowercase keys, the loop of [Clear] removes the keys it visits,
    in whatever order it visits them. *)
Lemma clearLoop_lookup ks : ∀ m j,
  lowerKeys m →
  clearLoop ks m !! j = if decide (j ∈ ks) then None else m !! j.
Proof.
  induction ks as [|k ks IH]; intros m j Hlow.
  - destruct (decide (j ∈ [])) as [Hin|]; [by apply elem_of_nil in Hin|done].
  - assert ((if bool_decide (is_Some (m !! k))
             then delete (ToLower k) m else m) = delete k m) as Hstep.
    { destruct (bool_decide_reflect (is_Some (m !! k))) as [Hk|Hk].
      - by rewrite (Hlow k Hk).
      - symmetry. apply delete_id. by apply eq_None_not_Some. }
    unfold clearLoop in *. cbn [foldl]. rewrite Hstep.
    rewrite IH by by apply lowerKeys_delete.
    destruct (decide (j = k)) as [->|Hne].
    + rewrite (decide_True (P := k ∈ k :: ks)) by (apply elem_of_cons; auto).
      destruct (decide (k ∈ ks)); [done|apply lookup_delete_eq].
    + rewrite lookup_delete_ne by done.
      destruct (decide (j ∈ ks)) as [Hin|Hnin].
      * by rewrite decide_True by (apply elem_of_cons; auto).
      * rewrite decide_False; [done|].
        by intros [?|?]%elem_of_cons.
Qed.

Lemma clearLoop_all ks m :
  lowerKeys m → (∀ key, is_Some (m !! key) → key ∈ ks) → clearLoop ks m = ∅.
Proof.
  intros Hlow Hall. apply map_empty. intros j.
  rewrite clearLoop_lookup by done.
  destruct (decide (j ∈ ks)) as [|Hnin]; [done|].
  apply eq_None_not_Some. intros Hj. by apply Hnin, Hall.
Qed.

Lemma map_keys_all (m : gmap string string) key :
  is_Some (m !! key) → key ∈ (map_to_list m).*1.
Proof.
  intros [v Hv]. apply list_elem_of_fmap. exists (key, v).
  split; [done|]. by apply elem_of_map_to_list.
Qed.

(** On a store that keeps its keys lowercase, [Clear] empties the map. *)
Lemma Clear_empties g m :
  GonfigurationValues g = Some m → keysLower g →
  Clear g = (setValues g ∅, None).
Proof.
  intros Hm Hlow. unfold Clear. rewrite Hm.
  rewrite clearLoop_all; [done| |apply map_keys_all].
  by apply (keysLower_lowerKeys g m).
Qed.

Lemma scanLines_keysLower lines : ∀ g g' e,
  keysLower g → scanLines g lines = (g', e) → keysLower g'.
Proof.
  induction lines as [|l ls IH]; intros g g' e Hlow Hrun.
  - by injection Hrun as <- <-.
  - destruct (GonfigurationValues g) as [m|] eqn:Hm.
    + rewrite (scanLines_step _ m) in Hrun by done.
      destruct (isGonfigurationLine g l); [|by eapply IH].
      destruct (bool_decide (is_Some (m !! lineKey l))).
      * by injection Hrun as <- <-.
      * eapply IH; [|exact Hrun].
        apply keysLower_setValues, lowerKeys_insert.
        by apply (keysLower_lowerKeys g m).
    + rewrite scanLines_nil in Hrun by done. by injection Hrun as <- <-.
Qed.

Lemma keysLower_setPath g path : keysLower g → keysLower (setPath g path).
Proof. intros H m key. apply H. Qed.

Lemma LoadFromPath_keysLower g path :
  keysLower g → keysLower (LoadFromPath g path).1.
Proof.
  intros Hlow. unfold LoadFromPath.
  destruct (ReadLines path) as [lines|]; [|by apply keysLower_setPath].
  destruct (scanLines (setPath g path) lines) as [g' e] eqn:Hrun.
  eapply scanLines_keysLower; [|exact Hrun]. by apply keysLower_setPath.
Qed.

Lemma AddNew_keysLower g key value : keysLower g → keysLower (AddNew g key value).1.
Proof.
  intros Hlow. unfold AddNew, Contains.
  destruct (GonfigurationValues g) as [m|] eqn:Hm; [|done].
  destruct (bool_decide (is_Some (m !! ToLower key))); [done|].
  apply keysLower_setValues, lowerKeys_insert. by apply (keysLower_lowerKeys g m).
Qed.

Lemma Update_keysLower g key value : keysLower g → keysLower (Update g key value).1.
Proof.
  intros Hlow. unfold Update.
  destruct (GonfigurationValues g) as [m|] eqn:Hm; [|done].
  apply keysLower_setValues, lowerKeys_insert. by apply (keysLower_lowerKeys g m).
Qed.

Lemma Delete_keysLower g key : keysLower g → keysLower (Delete g key).1.
Proof.
  intros Hlow. unfold Delete, Contains.
  destruct (GonfigurationValues g) as [m|] eqn:Hm; [|done].
  destruct (bool_decide (is_Some (m !! ToLower key))); [|done].
  apply keysLower_setValues, lowerKeys_delete. by apply (keysLower_lowerKeys g m).
Qed.

Lemma Clear_keysLower g : keysLower g → keysLower (Clear g).1.
Proof.
  intros Hlow. destruct (GonfigurationValues g) as [m|] eqn:Hm.
  - rewrite (Clear_empties g m) by done.
    apply keysLower_setValues, lowerKeys_empty.
  - unfold Clear. by rewrite Hm.
Qed.

Lemma Reload_keysLower g : keysLower g → keysLower (Reload g).1.
Proof.
  intros Hlow. unfold Reload.
  destruct (GonfigurationValues g) as [m|] eqn:Hm; [|done].
  pose proof (Clear_keysLower g Hlow) as Hc.
  destruct (Clear g) as [g1 e1]. by apply LoadFromPath_keysLower.
Qed.

Lemma New_keysLower path validate : keysLower (New path validate).1.
Proof.
  apply LoadFromPath_keysLower. apply (keysLower_setValues (mkGonfiguration None validate path)), lowerKeys_empty.
Qed.

Lemma exec_keysLower o g : keysLower g → keysLower (exec o g).1.
Proof.
  intros Hlow. destruct o; simpl.
  - pose proof (LoadFromPath_keysLower g path Hlow). by destruct LoadFromPath.
  - pose proof (Reload_keysLower g Hlow). by destruct Reload.
  - by destruct GetParamAsString.
  - by destruct GetParamAsStringArray.
  - by destruct GetParamAsInt.
  - by destruct GetParamAsIntArray.
  - by destruct GetParamAsBool.
  - pose proof (AddNew_keysLower g key value Hlow). by destruct AddNew.
  - pose proof (Update_keysLower g key value Hlow). by destruct Update.
  - pose proof (Delete_keysLower g key Hlow). by destruct Delete.
  - by destruct Contains.
  - pose proof (Clear_keysLower g Hlow). by destruct Clear.
  - by destruct Len.
  - by destruct Map.
  - unfold Dispose. destruct (Clear g). by apply keysLower_disposed.
Qed.

(** *** Properties of the loader *)

Lemma entries_setPath g path lines : entries (setPath g path) lines = entries g lines.
Proof. induction lines as [|l ls IH]; [done|]. simpl. by rewrite IH. Qed.

Lemma entries_elem g lines line :
  line ∈ lines → isGonfigurationLine g line = true →
  lineKey line ∈ (entries g lines).*1 ∧
  (lineKey line, lineValue line) ∈ entries g lines.
Proof.
  intros Hin Hacc. induction lines as [|l ls IH]; [by apply elem_of_nil in Hin|].
  apply elem_of_cons in Hin as [<-|Hin].
  - simpl. rewrite Hacc. split; apply elem_of_cons; auto.
  - destruct (IH Hin) as [H1 H2]. simpl.
    destruct (isGonfigurationLine g l); [|done].
    split; apply elem_of_cons; auto.
Qed.

(** C1: after a load that reports no error, every line the validator
    accepted has its entry in the store: the key is the text of the line
    before its first '=' in lowercase, the value is the rest of the line
    after that '=' (the remaining pieces joined with '=' again), so a value
    may contain '=' and a key cannot.  A file with the line
    welcome.message=a=b=c gives the value a=b=c to welcome.message. *)
Theorem C1_load_stores_key_and_value :
  (∀ g m path lines g' line def,
      GonfigurationValues g = Some m →
      ReadLines path = Some lines →
      LoadFromPath g path = (g', None) →
      line ∈ lines →
      isGonfigurationLine g line = true →
      default EmptyString (Split explode line "=" !! 0%nat) = beforeFirstEq line ∧
      Join (drop 1 (Split explode line "=")) "=" = afterFirstEq line ∧
      hasEq (beforeFirstEq line) = false ∧
      line = (if hasEq line
              then beforeFirstEq line +:+ "=" +:+ afterFirstEq line
              else beforeFirstEq line) ∧
      (∃ m', GonfigurationValues g' = Some m' ∧
             m' !! ToLower (beforeFirstEq line) = Some (afterFirstEq line)) ∧
      GetParamAsString g' (beforeFirstEq line) def = (afterFirstEq line, None)) ∧
  (∀ path validate,
      ReadLines path = Some ["welcome.message=a=b=c"] →
      isGonfigurationLine (mkGonfiguration (Some ∅) validate path)
        "welcome.message=a=b=c" = true →
      GetParamAsString (New path validate).1 "welcome.message" EmptyString = ("a=b=c", None)).
Proof.
  assert (∀ g m path lines g' line def,
      GonfigurationValues g = Some m →
      ReadLines path = Some lines →
      LoadFromPath g path = (g', None) →
      line ∈ lines →
      isGonfigurationLine g line = true →
      (∃ m', GonfigurationValues g' = Some m' ∧
             m' !! ToLower (beforeFirstEq line) = Some (afterFirstEq line)) ∧
      GetParamAsString g' (beforeFirstEq line) def = (afterFirstEq line, None))
    as Hstored.
  { intros g m path lines g' line def Hm Hfile Hload Hin Hacc.
    unfold LoadFromPath in Hload. rewrite Hfile in Hload.
    apply (scanLines_success _ _ m) in Hload as (-> & Hnd & _); [|done].
    rewrite entries_setPath in *.
    assert ((list_to_map (entries g lines) ∪ m : gmap string string)
              !! lineKey line = Some (lineValue line)) as Hlook.
    { apply lookup_union_Some_l, elem_of_list_to_map; [done|].
      by apply entries_elem. }
    split; [by eexists|].
    unfold GetParamAsString. simpl. fold (lineKey line). by rewrite Hlook. }
  split.
  - intros g m path lines g' line def Hm Hfile Hload Hin Hacc.
    split; [apply Split_key|]. split; [apply Split_value|].
    split; [apply beforeFirstEq_no_eq|]. split; [apply line_decompose|].
    by eapply Hstored.
  - intros path validate Hfile Hacc.
    destruct (New path validate) as [g' e] eqn:Hnew.
    unfold New, LoadFromPath in Hnew. rewrite Hfile in Hnew.
    rewrite (scanLines_step _ ∅) in Hnew by done.
    change (isGonfigurationLine (setPath _ path) ?l)
      with (isGonfigurationLine (mkGonfiguration (Some ∅) validate path) l) in Hnew.
    rewrite Hacc, lookup_empty in Hnew.
    rewrite bool_decide_eq_false_2 in Hnew by by intros [? ?].
    injection Hnew as <- <-.
    unfold GetParamAsString. simpl.
    change "welcome.message" with (beforeFirstEq "welcome.message=a=b=c") at 1.
    fold (lineKey "welcome.message=a=b=c").
    by rewrite lookup_insert_eq.
Qed.

(** C2: on a store with its map in place, a file whose accepted lines give
    the same lowercase key twice makes [LoadFromPath] return the
    duplicate-key error; the load stops at the first accepted line whose
    key is taken, and the entries of the lines before it stay in the
    store. *)
Theorem C2_duplicate_key_stops_load g m path :
  GonfigurationValues g = Some m →
  (∀ lines,
      ReadLines path = Some lines →
      ¬ NoDup (entries g lines).*1 →
      (LoadFromPath g path).2 = Some errorDuplicatedEntry) ∧
  (∀ pre bad post,
      ReadLines path = Some (pre ++ bad :: post) →
      NoDup (entries g pre).*1 →
      (∀ key, key ∈ (entries g pre).*1 → m !! key = None) →
      isGonfigurationLine g bad = true →
      lineKey bad ∈ (entries g pre).*1 ∨ is_Some (m !! lineKey bad) →
      LoadFromPath g path =
        (mkGonfiguration (Some (list_to_map (entries g pre) ∪ m))
                         (ValidateConfigLine g) path,
         Some errorDuplicatedEntry)).
Proof.
  intros Hm. split.
  - intros lines Hfile Hdup. unfold LoadFromPath. rewrite Hfile.
    destruct (scanLines (setPath g path) lines) as [g' [e|]] eqn:Hrun.
    + by apply (scanLines_error _ _ m) in Hrun as [-> _].
    + apply (scanLines_success _ _ m) in Hrun as (_ & Hnd & _); [|done].
      rewrite entries_setPath in Hnd. done.
  - intros pre bad post Hfile Hnd Hnew Hacc Htaken.
    unfold LoadFromPath. rewrite Hfile.
    eapply (scanLines_stop pre (setPath g path) m); [done| | |done|].
    + rewrite (scanLines_complete pre _ m); [|done|by rewrite entries_setPath..].
      by rewrite entries_setPath.
    + done.
    + destruct Htaken as [Hin|[v Hv]].
      * apply list_elem_of_fmap in Hin as ([k v] & Hk & Hin). simpl in Hk.
        exists v. apply lookup_union_Some_l, elem_of_list_to_map; [done|].
        by rewrite Hk.
      * apply lookup_union_is_Some. right. by exists v.
Qed.

(** C10: [LoadFromPath] on a store with its map in place never removes or
    overwrites an entry that was there: each one is found with the same
    value afterwards, whatever the file holds; when an accepted line of
    the file gives a key the store already has, the call fails with the
    duplicate-key error (and the entry is as it was). *)
Theorem C10_LoadFromPath_keeps_entries g m path :
  GonfigurationValues g = Some m →
  (∃ m', GonfigurationValues (LoadFromPath g path).1 = Some m' ∧
         ∀ key value, m !! key = Some value → m' !! key = Some value) ∧
  (∀ lines line,
      ReadLines path = Some lines →
      line ∈ lines →
      isGonfigurationLine g line = true →
      is_Some (m !! lineKey line) →
      (LoadFromPath g path).2 = Some errorDuplicatedEntry).
Proof.
  intros Hm. split.
  - unfold LoadFromPath. destruct (ReadLines path) as [lines|].
    + destruct (scanLines (setPath g path) lines) as [g' e] eqn:Hrun.
      apply (scanLines_grows _ _ m) in Hrun as (m' & -> & Hsub); [|done].
      exists m'. split; [done|]. intros key value Hk.
      by eapply lookup_weaken.
    + exists m. done.
  - intros lines line Hfile Hin Hacc [v Hv].
    unfold LoadFromPath. rewrite Hfile.
    destruct (scanLines (setPath g path) lines) as [g' [e|]] eqn:Hrun.
    + by apply (scanLines_error _ _ m) in Hrun as [-> _].
    + apply (scanLines_success _ _ m) in Hrun as (_ & _ & Hnew); [|done].
      rewrite entries_setPath in Hnew.
      rewrite (Hnew (lineKey line)) in Hv; [done|].
      by apply entries_elem.
Qed.

(** *** Properties of the accessors and mutators *)

(** C3: the store made by [New] has lowercase keys only, and every
    operation (the load, [Reload], [AddNew], [Update], [Delete], [Clear],
    and the rest) keeps it so; the getters, [Contains], [Delete], [AddNew]
    and [Update] see their key argument through [strings.ToLower] only, so
    two spellings of a key that differ in case behave alike. *)
Theorem C3_keys_case_normalized :
  (∀ path validate, keysLower (New path validate).1) ∧
  (∀ o g, keysLower g → keysLower (exec o g).1) ∧
  (∀ os g, keysLower g → keysLower (run os g)) ∧
  (∀ g k k',
      ToLower k = ToLower k' →
      (∀ def, GetParamAsString g k def = GetParamAsString g k' def) ∧
      (∀ def sep, GetParamAsStringArray g k def sep =
                  GetParamAsStringArray g k' def sep) ∧
      (∀ def, GetParamAsInt g k def = GetParamAsInt g k' def) ∧
      (∀ def sep, GetParamAsIntArray g k def sep =
                  GetParamAsIntArray g k' def sep) ∧
      (∀ def, GetParamAsBool g k def = GetParamAsBool g k' def) ∧
      Contains g k = Contains g k' ∧
      Delete g k = Delete g k' ∧
      (∀ value, AddNew g k value = AddNew g k' value) ∧
      (∀ value, Update g k value = Update g k' value)) ∧
  (∀ g k, Contains g (ToLower k) = Contains g k).
Proof.
  split; [apply New_keysLower|]. split; [apply exec_keysLower|].
  split; [|split].
  - intros os. induction os as [|o os IH]; intros g Hlow; [done|].
    apply IH. by apply exec_keysLower.
  - intros g k k' Hk.
    unfold GetParamAsIntArray, GetParamAsStringArray, GetParamAsString,
      GetParamAsInt, GetParamAsBool, Delete, AddNew, Update, Contains.
    rewrite Hk. done.
  - intros g k. unfold Contains. by rewrite ToLower_idem.
Qed.

(** C4: on a store with its map in place and a key that, in lowercase, is
    not in the map, [GetParamAsString] returns the default with the
    key-not-found error and [GetParamAsStringArray] returns the default
    split by the separator with the same error; on an empty store the
    key "missing" with default "d1,d2" and separator "," gives the two
    pieces d1 and d2. *)
Theorem C4_missing_key_returns_default :
  (∀ g m key def sep,
      GonfigurationValues g = Some m →
      m !! ToLower key = None →
      GetParamAsString g key def = (def, Some errorKeyNotFound) ∧
      GetParamAsStringArray g key def sep =
        (Split explode def sep, Some errorKeyNotFound)) ∧
  (∀ validate path,
      GetParamAsStringArray (mkGonfiguration (Some ∅) validate path)
        "missing" "d1,d2" "," = (["d1"; "d2"], Some errorKeyNotFound)).
Proof.
  split.
  - intros g m key def sep Hm Hk.
    unfold GetParamAsString, GetParamAsStringArray. by rewrite Hm, Hk.
  - intros validate path. unfold GetParamAsStringArray. simpl.
    by rewrite lookup_empty.
Qed.

(** C5: when the store holds an entry under the lowercase form of a key,
    [AddNew] with any spelling of that key fails with the duplicate-key
    error and returns the store as it was, so the value is still there;
    [AddNew] inserts exactly when the lowercase key is absent, and a second
    [AddNew] of the same key in any case fails and keeps the first value. *)
Theorem C5_AddNew_rejects_existing_key :
  (∀ g m K K' V v def,
      GonfigurationValues g = Some m →
      m !! ToLower K = Some v →
      ToLower K' = ToLower K →
      AddNew g K' V = (g, Some errorDuplicatedEntry) ∧
      GetParamAsString (AddNew g K' V).1 K def = (v, None)) ∧
  (∀ g m K V,
      GonfigurationValues g = Some m →
      (m !! ToLower K = None →
       AddNew g K V = (setValues g (<[ToLower K := V]> m), None)) ∧
      ((AddNew g K V).2 = None → m !! ToLower K = None)) ∧
  (∀ g m K K' V V' def,
      GonfigurationValues g = Some m →
      m !! ToLower K = None →
      ToLower K' = ToLower K →
      (AddNew g K V).2 = None ∧
      AddNew (AddNew g K V).1 K' V' =
        ((AddNew g K V).1, Some errorDuplicatedEntry) ∧
      GetParamAsString (AddNew (AddNew g K V).1 K' V').1 K def = (V, None)).
Proof.
  split; [|split].
  - intros g m K K' V v def Hm Hk HK'.
    unfold AddNew, Contains. rewrite Hm, HK', Hk.
    rewrite bool_decide_eq_true_2 by by eexists.
    split; [done|]. unfold GetParamAsString. simpl. by rewrite Hm, Hk.
  - intros g m K V Hm. unfold AddNew, Contains. rewrite Hm. split.
    + intros Hk. rewrite Hk. by rewrite bool_decide_eq_false_2 by by intros [? ?].
    + destruct (bool_decide_reflect (is_Some (m !! ToLower K))) as [|Hk]; [done|].
      intros _. by apply eq_None_not_Some.
  - intros g m K K' V V' def Hm Hk HK'.
    assert (AddNew g K V = (setValues g (<[ToLower K := V]> m), None)) as ->.
    { unfold AddNew, Contains. rewrite Hm, Hk.
      by rewrite bool_decide_eq_false_2 by by intros [? ?]. }
    split; [done|]. unfold AddNew, Contains.
    cbn [fst snd setValues GonfigurationValues].
    rewrite HK', lookup_insert_eq.
    rewrite bool_decide_eq_true_2 by by eexists.
    split; [done|]. unfold GetParamAsString.
    cbn [fst snd setValues GonfigurationValues]. by rewrite lookup_insert_eq.
Qed.

Lemma New_shape path validate :
  ∃ m, (New path validate).1 = mkGonfiguration (Some m) validate path.
Proof.
  unfold New, LoadFromPath. destruct (ReadLines path) as [lines|].
  - destruct (scanLines _ lines) as [g' e] eqn:Hrun.
    apply (scanLines_grows _ _ ∅) in Hrun as (m' & -> & _); [|done].
    by exists m'.
  - by exists ∅.
Qed.

(** C6 (as the code has it): [New] returns the store it built next to the
    error of the load, and the store always has its map, validator and
    path.  Without error it holds the entries of the accepted lines, whose
    keys are pairwise different; when the file cannot be opened it is empty;
    when the load stops on a duplicate key it holds the entries of the
    accepted lines before the first offending one: the lines before it have
    pairwise different keys and its own key is among them. *)
Theorem C6_New_returns_store_and_error path validate :
  let g0 := mkGonfiguration (Some ∅) validate path in
  ∃ m,
    (New path validate).1 = mkGonfiguration (Some m) validate path ∧
    match (New path validate).2 with
    | None =>
        ∃ lines, ReadLines path = Some lines ∧
                 NoDup (entries g0 lines).*1 ∧
                 m = list_to_map (entries g0 lines)
    | Some e =>
        (e = errorCantOpenFile ∧ ReadLines path = None ∧ m = ∅) ∨
        (e = errorDuplicatedEntry ∧
         ∃ pre bad post,
           ReadLines path = Some (pre ++ bad :: post) ∧
           NoDup (entries g0 pre).*1 ∧
           isGonfigurationLine g0 bad = true ∧
           m = list_to_map (entries g0 pre) ∧
           is_Some (m !! lineKey bad))
    end.
Proof.
  intros g0. unfold New, LoadFromPath.
  change (setPath _ path) with g0.
  destruct (ReadLines path) as [lines|]; [|exists ∅; simpl; auto].
  destruct (scanLines g0 lines) as [g' [e|]] eqn:Hrun.
  - apply (scanLines_error _ _ ∅) in Hrun
      as (-> & pre & bad & post & m' & -> & Hpre & Hbad & Hm' & Hdup); [|done].
    apply (scanLines_success _ _ ∅) in Hpre as (-> & Hnd & _); [|done].
    simpl in Hm'. injection Hm' as <-.
    rewrite (right_id_L ∅ (∪)) in *.
    eexists. split; [done|]. right. split; [done|].
    by exists pre, bad, post.
  - apply (scanLines_success _ _ ∅) in Hrun as (-> & Hnd & _); [|done].
    rewrite (right_id_L ∅ (∪)).
    eexists. split; [done|]. by exists lines.
Qed.

(** C8: on a store with its map in place [Reload] is [Clear] followed by
    [LoadFromPath] on the stored path, with the same final store and the
    same error; when the keys are lowercase, [Len] after [Clear] is 0 and
    a [Reload] after that gives the store of the original load again,
    hence its number of entries. *)
Theorem C8_Reload_is_Clear_then_LoadFromPath :
  (∀ g, initialized g → Reload g = Reload_spec g) ∧
  (∀ g, initialized g → keysLower g →
        Len (Clear g).1 = (0, None) ∧
        Reload (Clear g).1 = New (Path g) (ValidateConfigLine g) ∧
        Reload g = New (Path g) (ValidateConfigLine g)) ∧
  (∀ path validate,
      let g := (New path validate).1 in
      Len (Clear g).1 = (0, None) ∧
      (Reload (Clear g).1).1 = g ∧
      Len (Reload (Clear g).1).1 = Len g).
Proof.
  assert (∀ g, initialized g → keysLower g →
        Len (Clear g).1 = (0, None) ∧
        Reload (Clear g).1 = New (Path g) (ValidateConfigLine g) ∧
        Reload g = New (Path g) (ValidateConfigLine g)) as Hinv.
  { intros g [m Hm] Hlow. rewrite (Clear_empties g m) by done.
    split; [done|].
    assert (Reload (setValues g ∅) = New (Path g) (ValidateConfigLine g)) as Hr.
    { unfold Reload. cbn [setValues GonfigurationValues].
      rewrite (Clear_empties _ ∅); [done|done|].
      apply keysLower_setValues, lowerKeys_empty. }
    split; [exact Hr|].
    unfold Reload. rewrite Hm, (Clear_empties g m) by done. done. }
  split; [|split; [exact Hinv|]].
  - intros g [m Hm]. unfold Reload, Reload_spec. by rewrite Hm.
  - intros path validate g.
    destruct (New_shape path validate) as [m Hshape].
    destruct (Hinv g) as (Hlen & Hre & _).
    { exists m. subst g. by rewrite Hshape. }
    { apply New_keysLower. }
    split; [done|].
    assert ((Reload (Clear g).1).1 = g) as Heq.
    { rewrite Hre. subst g. by rewrite Hshape. }
    split; [done|]. by rewrite Heq.
Qed.

(** *** The released store *)

Lemma Clear_disposed g :
  GonfigurationValues g = None → Clear g = (g, Some errorGonfigurationNil).
Proof. intros Hg. unfold Clear. by rewrite Hg. Qed.

Lemma LoadFromPath_disposed g path :
  disposed g → disposed (LoadFromPath g path).1.
Proof.
  intros Hg. unfold LoadFromPath. destruct (ReadLines path) as [lines|]; [|done].
  by rewrite scanLines_nil.
Qed.

Lemma exec_disposed o g :
  disposed g →
  disposed (exec o g).1 ∧
  (guarded o = true → exec o g = (g, nilStoreResult o)).
Proof.
  intros Hg. unfold disposed in *.
  destruct o; simpl;
    unfold Reload, GetParamAsIntArray, GetParamAsStringArray, GetParamAsString,
      GetParamAsInt, GetParamAsBool, Delete, AddNew, Update, Contains, Clear,
      Len, Map, Dispose, Clear;
    rewrite ?Hg; simpl; try done.
  split; [|done].
  pose proof (LoadFromPath_disposed g path Hg). by destruct LoadFromPath.
Qed.

Lemma run_disposed os : ∀ g, disposed g → disposed (run os g).
Proof.
  induction os as [|o os IH]; intros g Hg; [done|].
  apply IH. by apply exec_disposed.
Qed.

(** C9: after [Dispose] the store has no map; every getter, every mutator,
    [Contains], [Len], [Map] and [Reload] then returns the nil-store error
    next to the zero value of its result and leaves the store as it is,
    and no sequence of operations brings the map back. *)
Theorem C9_disposed_is_terminal g :
  disposed (Dispose g) ∧
  (∀ o, guarded o = true →
        exec o (Dispose g) = (Dispose g, nilStoreResult o)) ∧
  (∀ os, disposed (run os (Dispose g))) ∧
  (∀ os o, guarded o = true →
           (exec o (run os (Dispose g))).2 = nilStoreResult o).
Proof.
  assert (disposed (Dispose g)) as Hd.
  { unfold Dispose. by destruct (Clear g). }
  split; [done|]. split; [|split].
  - intros o Ho. by apply exec_disposed.
  - intros os. by apply run_disposed.
  - intros os o Ho.
    destruct (exec_disposed o (run os (Dispose g))) as [_ Hex].
    { by apply run_disposed. }
    by rewrite Hex.
Qed.

(** *** [strconv.Atoi] and [GetParamAsInt] *)

Lemma digit_test c : (9 <? (byteVal c - 48) mod 256) = negb (isDigit c).
Proof. by destruct c as [[] [] [] [] [] [] [] []]. Qed.

Lemma atoiDigits_error bits s : ∀ n v e,
  atoiDigits bits n s = (v, Some e) → v = 0 ∧ e = ErrSyntax.
Proof.
  induction s as [|c s IH]; intros n v e H; [done|].
  cbn [atoiDigits] in H. destruct (9 <? (byteVal c - 48) mod 256).
  - by injection H as <- <-.
  - by eapply IH.
Qed.

Lemma atoiDigits_not_digits bits s : ∀ n,
  allDigits s = false → atoiDigits bits n s = (0, Some ErrSyntax).
Proof.
  induction s as [|c s IH]; intros n H; [done|].
  cbn [atoiDigits allDigits] in *. rewrite digit_test.
  destruct (isDigit c); [|done]. by apply IH.
Qed.

Lemma ParseInt_syntax bits s v :
  ParseInt bits s = (v, Some ErrSyntax) → v = 0.
Proof.
  unfold ParseInt. destruct s as [|c s]; [by intros [= <-]|].
  destruct (ParseUint bits _) as [un [[]|]];
    repeat case_match; by intros [= <-].
Qed.

Lemma ParseInt_range bits s v :
  ParseInt bits s = (v, Some ErrRange) →
  v = 2 ^ (bits - 1) - 1 ∨ v = - 2 ^ (bits - 1).
Proof.
  unfold ParseInt. destruct s as [|c s]; [done|].
  destruct (ParseUint bits _) as [un [[]|]];
    repeat case_match; intros [= <-]; auto.
Qed.

Lemma toSigned_bounds bits :
  bits = 32 ∨ bits = 64 →
  toSigned bits 0 = 0 ∧
  toSigned bits (2 ^ (bits - 1) - 1) = 2 ^ (bits - 1) - 1 ∧
  toSigned bits (- 2 ^ (bits - 1)) = - 2 ^ (bits - 1).
Proof. by intros [-> | ->]. Qed.

(** A syntax error of [Atoi] comes with the number 0. *)
Lemma Atoi_syntax_zero bits s v :
  bits = 32 ∨ bits = 64 → Atoi bits s = (v, Some ErrSyntax) → v = 0.
Proof.
  intros Hbits. unfold Atoi. case_match.
  - destruct s as [|c s]; [by intros [= <-]|].
    case_match; [by intros [= <-]|].
    destruct (atoiDigits bits 0 _) as [n [e|]] eqn:Hd; [|done].
    apply atoiDigits_error in Hd as [-> ->]. by intros [= <-].
  - destruct (ParseInt bits s) as [i64 err] eqn:Hp. intros [= <- ->].
    apply ParseInt_syntax in Hp as ->. by apply toSigned_bounds.
Qed.

(** A range error of [Atoi] comes with the largest or smallest [int]. *)
Lemma Atoi_range_bound bits s v :
  bits = 32 ∨ bits = 64 → Atoi bits s = (v, Some ErrRange) →
  v = 2 ^ (bits - 1) - 1 ∨ v = - 2 ^ (bits - 1).
Proof.
  intros Hbits. unfold Atoi. case_match.
  - destruct s as [|c s]; [done|].
    case_match; [done|].
    destruct (atoiDigits bits 0 _) as [n [e|]] eqn:Hd; [|done].
    by apply atoiDigits_error in Hd as [-> ->].
  - destruct (ParseInt bits s) as [i64 err] eqn:Hp. intros [= <- ->].
    destruct (toSigned_bounds bits Hbits) as (_ & Hmax & Hmin).
    apply ParseInt_range in Hp as [-> | ->]; [left|right]; done.
Qed.

(** On the fast path a text that is not a decimal integer is a syntax
    error. *)
Lemma Atoi_short_not_decimal bits s :
  (bits = 32 ∧ (String.length s < 10)%nat) ∨
  (bits = 64 ∧ (String.length s < 19)%nat) →
  isDecimal s = false →
  Atoi bits s = (0, Some ErrSyntax).
Proof.
  intros Hshort Hdec. destruct s as [|c s].
  { by destruct Hshort as [[-> _]|[-> _]]. }
  assert (((bits =? 32) &&
           ((0 <? Z.of_nat (String.length (String c s))) &&
            (Z.of_nat (String.length (String c s)) <? 10)) ||
           (bits =? 64) &&
           ((0 <? Z.of_nat (String.length (String c s))) &&
            (Z.of_nat (String.length (String c s)) <? 19))) = true) as Hfast.
  { apply orb_true_intro.
    destruct Hshort as [[-> Hlen]|[-> Hlen]]; [left|right];
      apply andb_true_intro; (split; [done|]);
      apply andb_true_intro; split; apply Z.ltb_lt;
      cbn [String.length] in *; lia. }
  unfold Atoi. cbv zeta. rewrite Hfast. clear Hfast.
  unfold isDecimal in Hdec.
  destruct (Ascii.eqb c "-" || Ascii.eqb c "+").
  - destruct s as [|c' s']; [done|].
    cbn [andb negb String.eqb String.length] in *.
    rewrite (proj2 (Z.ltb_ge _ _)) by lia.
    cbn [andb].
    by rewrite atoiDigits_not_digits.
  - cbn [andb]. by rewrite atoiDigits_not_digits.
Qed.

(** C7 (as the code has it): on a store with its map in place and a key
    that is present, [GetParamAsInt] returns what [strconv.Atoi] computes
    for the stored value and drops [Atoi]'s error: 0 on a syntax error (so
    for every value of fewer than 10 bytes, 19 where [int] has 64 bits,
    that is not an optional sign and digits), the largest or smallest [int]
    on a range error.  The call has an error only when the key is missing,
    and then returns the default. *)
Theorem C7_GetParamAsInt_drops_parse_error g m key def :
  intSize = 32 ∨ intSize = 64 →
  GonfigurationValues g = Some m →
  (∀ val,
      m !! ToLower key = Some val →
      GetParamAsInt g key def = ((Atoi intSize val).1, None) ∧
      ((Atoi intSize val).2 = Some ErrSyntax →
       GetParamAsInt g key def = (0, None)) ∧
      ((Atoi intSize val).2 = Some ErrRange →
       GetParamAsInt g key def = (2 ^ (intSize - 1) - 1, None) ∨
       GetParamAsInt g key def = (- 2 ^ (intSize - 1), None)) ∧
      (isDecimal val = false →
       (intSize = 32 ∧ (String.length val < 10)%nat) ∨
       (intSize = 64 ∧ (String.length val < 19)%nat) →
       GetParamAsInt g key def = (0, None))) ∧
  (m !! ToLower key = None →
   GetParamAsInt g key def = (def, Some errorKeyNotFound)).
Proof.
  intros Hbits Hm. split.
  - intros val Hval. unfold GetParamAsInt. rewrite Hm, Hval.
    destruct (Atoi intSize val) as [n err] eqn:Hatoi. simpl.
    split; [done|]. split; [|split].
    + intros ->. by apply Atoi_syntax_zero in Hatoi as ->.
    + intros ->. apply Atoi_range_bound in Hatoi as [-> | ->]; auto.
    + intros Hdec Hshort.
      rewrite Atoi_short_not_decimal in Hatoi by done. by injection Hatoi as <- _.
  - intros Hkey. unfold GetParamAsInt. by rewrite Hm, Hkey.
Qed.

(** *** Further properties of the mutators *)

Lemma getString_lookup g m key def :
GonfigurationValues g = Some m →
GetParamAsString g key def =
  match m !! ToLower key with
  | Some val => (val, None)
  | None => (def, Some errorKeyNotFound)
  end.
Proof. intros Hm. unfold GetParamAsString. by rewrite Hm. Qed.

(** X1: on a store with its map in place [Update] never fails; afterwards
    every spelling of the key reads the new value, every other key reads
    what it read before, and the number of entries grows by one exactly when
    the key was absent. *)
Theorem Update_upsert g m key value :
GonfigurationValues g = Some m →
(Update g key value).2 = None ∧
(∀ k def, ToLower k = ToLower key →
          GetParamAsString (Update g key value).1 k def = (value, None)) ∧
(∀ k def, ToLower k ≠ ToLower key →
          GetParamAsString (Update g key value).1 k def =
          GetParamAsString g k def) ∧
Len (Update g key value).1 =
  ((if bool_decide (is_Some (m !! ToLower key)) then 0 else 1) + (Len g).1, None) ∧
Path (Update g key value).1 = Path g ∧
ValidateConfigLine (Update g key value).1 = ValidateConfigLine g.
Proof.
intros Hm. unfold Update. rewrite Hm. cbn [fst snd].
split; [done|]. split; [|split; [|split; [|done]]].
- intros k def Hk. rewrite (getString_lookup _ (<[ToLower key:=value]> m)) by done.
  by rewrite Hk, lookup_insert_eq.
- intros k def Hk. rewrite (getString_lookup _ (<[ToLower key:=value]> m)) by done.
  rewrite (getString_lookup g m) by done. by rewrite lookup_insert_ne.
- unfold Len. rewrite Hm. cbn [setValues GonfigurationValues fst].
  destruct (bool_decide_reflect (is_Some (m !! ToLower key))) as [Hin|Hout].
  + by rewrite map_size_insert_Some.
  + rewrite map_size_insert_None by by apply eq_None_not_Some.
    f_equal. lia.
Qed.

(** X2: [Delete] of a key that is present (in any spelling) succeeds, after
    which [Contains] is false for it, every other key reads as before, the
    store has one entry less and a second [Delete] fails with the
    key-not-found error; [Delete] of an absent key fails with that error and
    returns the store untouched. *)
Theorem Delete_removes_one_entry g m key :
GonfigurationValues g = Some m →
(is_Some (m !! ToLower key) →
 (Delete g key).2 = None ∧
 Contains (Delete g key).1 key = (false, None) ∧
 (∀ k def, ToLower k ≠ ToLower key →
           GetParamAsString (Delete g key).1 k def = GetParamAsString g k def) ∧
 Len (Delete g key).1 = ((Len g).1 - 1, None) ∧
 Delete (Delete g key).1 key = ((Delete g key).1, Some errorKeyNotFound)) ∧
(m !! ToLower key = None → Delete g key = (g, Some errorKeyNotFound)).
Proof.
intros Hm. split.
- intros Hin.
  assert (Delete g key = (setValues g (delete (ToLower key) m), None)) as ->.
  { unfold Delete, Contains. rewrite Hm. by rewrite bool_decide_eq_true_2. }
  cbn [fst snd]. split; [done|]. split; [|split; [|split]].
  + unfold Contains. cbn [setValues GonfigurationValues].
    rewrite lookup_delete_eq. by rewrite bool_decide_eq_false_2 by by intros [? ?].
  + intros k def Hk. rewrite (getString_lookup _ (delete (ToLower key) m)) by done.
    rewrite (getString_lookup g m) by done. by rewrite lookup_delete_ne.
  + unfold Len. rewrite Hm. cbn [setValues GonfigurationValues fst].
    rewrite map_size_delete_Some by done.
    assert (size m ≠ 0%nat).
    { intros Hz. apply map_size_empty_inv in Hz. subst m.
      destruct Hin as [v Hv]. by rewrite lookup_empty in Hv. }
    f_equal. lia.
  + unfold Delete, Contains. cbn [setValues GonfigurationValues].
    rewrite lookup_delete_eq. by rewrite bool_decide_eq_false_2 by by intros [? ?].
- intros Hout. unfold Delete, Contains. rewrite Hm, Hout.
  by rewrite bool_decide_eq_false_2 by by intros [? ?].
Qed.

(** X3: [AddNew] and [Delete] undo each other: deleting a key right after
    it was added to a store that did not have it gives the store back, and so
    does adding a key again with its old value right after deleting it. *)
Theorem AddNew_Delete_inverse g m K K' :
GonfigurationValues g = Some m →
ToLower K' = ToLower K →
(∀ V, m !! ToLower K = None →
      (AddNew g K V).2 = None ∧ Delete (AddNew g K V).1 K' = (g, None)) ∧
(∀ v, m !! ToLower K = Some v →
      (Delete g K).2 = None ∧ AddNew (Delete g K).1 K' v = (g, None)).
Proof.
intros Hm HK. split.
- intros V Hout.
  assert (AddNew g K V = (setValues g (<[ToLower K := V]> m), None)) as ->.
  { unfold AddNew, Contains. rewrite Hm, Hout.
    by rewrite bool_decide_eq_false_2 by by intros [? ?]. }
  split; [done|]. unfold Delete, Contains.
  cbn [fst setValues GonfigurationValues].
  rewrite HK, lookup_insert_eq, bool_decide_eq_true_2 by by eexists.
  cbn [negb]. rewrite delete_insert_id by done.
  unfold setValues. cbn [ValidateConfigLine Path].
  by rewrite <- (setValues_same g m) at 3.
- intros v Hin.
  assert (Delete g K = (setValues g (delete (ToLower K) m), None)) as ->.
  { unfold Delete, Contains. rewrite Hm, Hin.
    by rewrite bool_decide_eq_true_2 by by eexists. }
  split; [done|]. unfold AddNew, Contains.
  cbn [fst setValues GonfigurationValues].
  rewrite HK, lookup_delete_eq, bool_decide_eq_false_2 by by intros [? ?].
  rewrite insert_delete_id by done.
  unfold setValues. cbn [ValidateConfigLine Path].
  by rewrite <- (setValues_same g m) at 3.
Qed.

(** X4: how [Update] relates to the other mutators: on an absent key it does
    what [AddNew] does, on a present key what [Delete] followed by [AddNew]
    does; of two updates of one key the last one wins, and updates of
    different keys can be swapped. *)
Theorem Update_composition g m k v :
GonfigurationValues g = Some m →
(m !! ToLower k = None → Update g k v = AddNew g k v) ∧
(is_Some (m !! ToLower k) → Update g k v = AddNew (Delete g k).1 k v) ∧
(∀ k' v', ToLower k' = ToLower k →
          Update (Update g k v).1 k' v' = Update g k' v') ∧
(∀ k' v', ToLower k' ≠ ToLower k →
          Update (Update g k v).1 k' v' = Update (Update g k' v').1 k v).
Proof.
intros Hm. split; [|split; [|split]].
- intros Hout. unfold Update, AddNew, Contains. rewrite Hm, Hout.
  by rewrite bool_decide_eq_false_2 by by intros [? ?].
- intros Hin. unfold Update, AddNew, Delete, Contains. rewrite Hm.
  rewrite bool_decide_eq_true_2 by done.
  cbn [negb fst setValues GonfigurationValues ValidateConfigLine Path].
  rewrite lookup_delete_eq, bool_decide_eq_false_2 by by intros [? ?].
  unfold setValues. cbn [ValidateConfigLine Path]. by rewrite insert_delete_eq.
- intros k' v' Hk. unfold Update. rewrite Hm.
  cbn [fst setValues GonfigurationValues ValidateConfigLine Path].
  by rewrite Hk, insert_insert_eq.
- intros k' v' Hk. unfold Update. rewrite Hm.
  cbn [fst setValues GonfigurationValues ValidateConfigLine Path].
  unfold setValues. cbn [ValidateConfigLine Path].
  by rewrite insert_insert_ne.
Qed.

(** X5: on a store with its map in place [Contains] tells how every keyed
    call ends.  When it is true all five getters return without error,
    [Delete] succeeds and [AddNew] is refused; when it is false the getters
    return the key-not-found error next to the default (split and parsed
    like a stored value would be), [Delete] is refused and [AddNew]
    succeeds. *)
Theorem Contains_decides_keyed_calls g key :
initialized g →
(Contains g key).2 = None ∧
((Contains g key).1 = true →
 (∀ def, (GetParamAsString g key def).2 = None) ∧
 (∀ def sep, (GetParamAsStringArray g key def sep).2 = None) ∧
 (∀ def, (GetParamAsInt g key def).2 = None) ∧
 (∀ def sep, (GetParamAsIntArray g key def sep).2 = None) ∧
 (∀ def, (GetParamAsBool g key def).2 = None) ∧
 (Delete g key).2 = None ∧
 (∀ value, AddNew g key value = (g, Some errorDuplicatedEntry))) ∧
((Contains g key).1 = false →
 (∀ def, GetParamAsString g key def = (def, Some errorKeyNotFound)) ∧
 (∀ def sep, GetParamAsStringArray g key def sep =
             (Split explode def sep, Some errorKeyNotFound)) ∧
 (∀ def, GetParamAsInt g key def = (def, Some errorKeyNotFound)) ∧
 (∀ def sep, GetParamAsIntArray g key def sep =
             (map (λ x, (Atoi intSize x).1) (Split explode def sep),
              Some errorKeyNotFound)) ∧
 (∀ def, GetParamAsBool g key def = (def, Some errorKeyNotFound)) ∧
 Delete g key = (g, Some errorKeyNotFound) ∧
 (∀ value, (AddNew g key value).2 = None)).
Proof.
intros [m Hm].
unfold GetParamAsIntArray, GetParamAsStringArray, GetParamAsString,
  GetParamAsInt, GetParamAsBool, Delete, AddNew, Contains.
rewrite Hm. cbn [fst snd]. split; [done|].
destruct (m !! ToLower key) as [val|] eqn:Hk.
- rewrite bool_decide_eq_true_2 by by eexists.
  split; [|done]. intros _. repeat split; try done.
  intros def. by destruct (Atoi intSize val).
- rewrite bool_decide_eq_false_2 by by intros [? ?].
  split; [done|]. intros _. by repeat split.
Qed.

(** *** Further properties of the validator and the loader *)

Lemma HasPrefix_hash line :
HasPrefix line "#" = true ↔ ∃ rest, line = String "#" rest.
Proof.
unfold HasPrefix. destruct line as [|c rest]; cbn [String.prefix].
- split; [done|]. by intros [? ?].
- destruct (ascii_dec "#" c) as [<-|Hne].
  + split; [by eexists|]. intros _. by destruct rest.
  + split; [done|]. intros [rest' [= -> _]]. done.
Qed.

(** X6: without a custom validator a line is an entry exactly when it has
    an '=' and does not begin with '#' (the test for the empty line adds
    nothing), and such a line is its key, an '=' and its value; a custom
    validator replaces the rule altogether. *)
Theorem default_validator_accepts g line :
(ValidateConfigLine g = None →
 (isGonfigurationLine g line = true ↔
  hasEq line = true ∧ ¬ ∃ rest, line = String "#" rest) ∧
 (isGonfigurationLine g line = true →
  line = beforeFirstEq line +:+ "=" +:+ afterFirstEq line)) ∧
(∀ validate, ValidateConfigLine g = Some validate →
             isGonfigurationLine g line = validate line).
Proof.
split.
- intros Hv.
  assert (isGonfigurationLine g line = true ↔
          hasEq line = true ∧ ¬ ∃ rest, line = String "#" rest) as Hiff.
  { unfold isGonfigurationLine. rewrite Hv, Contains_eq_hasEq.
    rewrite <- HasPrefix_hash.
    destruct (HasPrefix line "#"), (hasEq line) eqn:Heq, line; cbn;
      try discriminate Heq; split; try done; try (by intros [? ?]);
      intros [_ H]; by destruct H. }
  split; [exact Hiff|].
  intros [Heq _]%Hiff. pose proof (line_decompose line) as Hd.
  by rewrite Heq in Hd.
- intros validate Hv. unfold isGonfigurationLine. by rewrite Hv.
Qed.

Lemma prefix_split sep : ∀ s,
String.prefix sep s = true → ∃ t, s = sep +:+ t.
Proof.
induction sep as [|a sep IH]; intros s Hp; [by exists s|].
destruct s as [|c s]; [done|]. cbn [String.prefix] in Hp.
destruct (ascii_dec a c) as [<-|]; [|done].
destruct (IH s Hp) as [t ->]. by exists t.
Qed.

Lemma splitLoop_skip sep pre : ∀ cur s,
splitLoop sep (String.length pre) cur (pre +:+ s) = splitLoop sep 0 cur s.
Proof.
induction pre as [|c pre IH]; intros cur s; [done|].
rewrite append_String. cbn [String.length splitLoop]. apply IH.
Qed.

Lemma length_append (s t : string) :
String.length (s +:+ t) = (String.length s + String.length t)%nat.
Proof.
induction s as [|c s IH]; [done|].
rewrite append_String. cbn [String.length]. by rewrite IH.
Qed.

Lemma append_assoc (s t u : string) : (s +:+ t) +:+ u = s +:+ t +:+ u.
Proof.
induction s as [|c s IH]; [done|]. rewrite !append_String. by rewrite IH.
Qed.

(** Splitting by a non-empty separator and joining with it is the identity. *)
Lemma Join_splitLoop sep n : ∀ s cur,
sep ≠ EmptyString →
(String.length s ≤ n)%nat →
Join (splitLoop sep 0 cur s) sep = cur +:+ s.
Proof.
induction n as [|n IH]; intros s cur Hsep Hlen.
- destruct s; [|cbn [String.length] in Hlen; lia].
  cbn. by rewrite append_empty_r.
- revert cur. induction s as [|c s IHs]; intros cur.
  + cbn. by rewrite append_empty_r.
  + cbn [splitLoop]. destruct (String.prefix sep (String c s)) eqn:Hp.
    * apply prefix_split in Hp as [t Ht].
      destruct sep as [|a sep]; [done|].
      rewrite append_String in Ht. injection Ht as <- ->.
      cbn [String.length Nat.pred]. rewrite splitLoop_skip.
      rewrite Join_cons by apply splitLoop_not_nil.
      rewrite IH; [|done|].
      -- by rewrite append_String.
      -- cbn [String.length] in Hlen. rewrite length_append in Hlen. lia.
    * rewrite IHs; [by rewrite append_snoc|].
      cbn [String.length] in Hlen. lia.
Qed.

Lemma Join_Split s sep :
sep ≠ EmptyString → Join (Split explode s sep) sep = s.
Proof.
intros Hsep. unfold Split.
destruct (String.eqb_spec sep EmptyString) as [|_]; [done|].
by apply (Join_splitLoop sep (String.length s) s EmptyString).
Qed.

Lemma Split_not_nil s sep : sep ≠ EmptyString → Split explode s sep ≠ [].
Proof.
intros Hsep. unfold Split.
destruct (String.eqb_spec sep EmptyString) as [|_]; [done|].
apply splitLoop_not_nil.
Qed.

Lemma splitLoop_no_sep sep : ∀ s cur,
sep ≠ EmptyString →
GoStrings.Contains s sep = false →
splitLoop sep 0 cur s = [cur +:+ s].
Proof.
induction s as [|c s IH]; intros cur Hsep Hno.
- cbn. by rewrite append_empty_r.
- change (GoStrings.Contains (String c s) sep) with
    (String.prefix sep (String c s) || GoStrings.Contains s sep) in Hno.
  apply orb_false_elim in Hno as [Hp Hrest].
  cbn [splitLoop]. rewrite Hp, IH by done. by rewrite append_snoc.
Qed.

(** X7: for a key that is present and a non-empty separator, the pieces
    [GetParamAsStringArray] returns are never none, and joined with the
    separator they give the stored value back; [GetParamAsIntArray] returns
    one number per piece. *)
Theorem GetParamAsStringArray_pieces g m key val def sep :
GonfigurationValues g = Some m →
m !! ToLower key = Some val →
sep ≠ EmptyString →
(GetParamAsStringArray g key def sep).2 = None ∧
(GetParamAsStringArray g key def sep).1 ≠ [] ∧
Join (GetParamAsStringArray g key def sep).1 sep = val ∧
length (GetParamAsIntArray g key def sep).1 =
  length (GetParamAsStringArray g key def sep).1.
Proof.
intros Hm Hk Hsep. unfold GetParamAsIntArray, GetParamAsStringArray.
rewrite Hm, Hk. cbn [fst snd].
split; [done|]. split; [by apply Split_not_nil|].
split; [by apply Join_Split|]. by rewrite length_map.
Qed.

(** X8: when the separator is not empty and does not occur in the stored
    value, the array getters return one piece: the value
    [GetParamAsString] returns, and the number [GetParamAsInt] returns. *)
Theorem array_getters_without_separator g m key val sep :
GonfigurationValues g = Some m →
m !! ToLower key = Some val →
sep ≠ EmptyString →
GoStrings.Contains val sep = false →
(∀ def def',
    GetParamAsStringArray g key def sep =
    ([(GetParamAsString g key def').1], None)) ∧
(∀ def def',
    GetParamAsIntArray g key def sep =
    ([(GetParamAsInt g key def').1], None)).
Proof.
intros Hm Hk Hsep Hno.
unfold GetParamAsIntArray, GetParamAsStringArray, GetParamAsString,
  GetParamAsInt.
rewrite Hm, Hk. unfold Split.
destruct (String.eqb_spec sep EmptyString) as [|_]; [done|].
rewrite splitLoop_no_sep by done.
change (EmptyString +:+ val) with val. cbn [map fst].
split; [done|]. intros _ def'. by destruct (Atoi intSize val).
Qed.

(** *** Further properties of [LoadFromPath], [Reload], [Clear] and [New] *)

Lemma LoadFromPath_shape g m path :
GonfigurationValues g = Some m →
∃ m', (LoadFromPath g path).1 = mkGonfiguration (Some m') (ValidateConfigLine g) path.
Proof.
intros Hm. unfold LoadFromPath. destruct (ReadLines path) as [lines|].
- destruct (scanLines _ lines) as [g' e] eqn:Hrun.
  apply (scanLines_grows _ _ m) in Hrun as (m' & -> & _); [|done].
  by exists m'.
- exists m. unfold setPath. by rewrite Hm.
Qed.

Lemma Reload_as_New g :
initialized g → keysLower g →
Reload g = New (Path g) (ValidateConfigLine g).
Proof.
intros [m Hm] Hlow. unfold Reload. by rewrite Hm, (Clear_empties g m).
Qed.

Lemma exec_guarded_keeps o g :
guarded o = true → initialized g →
initialized (exec o g).1 ∧
Path (exec o g).1 = Path g ∧
ValidateConfigLine (exec o g).1 = ValidateConfigLine g.
Proof.
intros Ho [m Hm]. destruct o; try done; cbn [exec].
- unfold Reload. rewrite Hm.
  destruct (Clear g) as [g1 e1] eqn:Hc. unfold Clear in Hc. rewrite Hm in Hc.
  injection Hc as <- <-.
  destruct (LoadFromPath_shape (setValues g (clearLoop (map_to_list m).*1 m))
              (clearLoop (map_to_list m).*1 m) (Path g) eq_refl) as [m' Hs].
  cbn [setValues Path] in *. destruct (LoadFromPath _ _) as [g' e].
  cbn [fst] in *. subst g'. split; [by eexists|done].
- destruct (GetParamAsString g key def). split; [by eexists|done].
- destruct (GetParamAsStringArray g key def sep). split; [by eexists|done].
- destruct (GetParamAsInt g key def). split; [by eexists|done].
- destruct (GetParamAsIntArray g key def sep). split; [by eexists|done].
- destruct (GetParamAsBool g key def). split; [by eexists|done].
- unfold AddNew, Contains. rewrite Hm.
  destruct (bool_decide _); cbn [fst]; (split; [by eexists|done]).
- unfold Update. rewrite Hm. cbn [fst]. split; [by eexists|done].
- unfold Delete, Contains. rewrite Hm.
  destruct (bool_decide _); cbn [fst negb]; (split; [by eexists|done]).
- destruct (Contains g key). split; [by eexists|done].
- unfold Clear. rewrite Hm. cbn [fst]. split; [by eexists|done].
- destruct (Len g). split; [by eexists|done].
- destruct (Map g). split; [by eexists|done].
Qed.

Lemma run_guarded_keeps os : ∀ g,
Forall (λ o, guarded o = true) os → initialized g → keysLower g →
initialized (run os g) ∧ keysLower (run os g) ∧
Path (run os g) = Path g ∧
ValidateConfigLine (run os g) = ValidateConfigLine g.
Proof.
induction os as [|o os IH]; intros g Hos Hi Hlow; [done|].
apply Forall_cons in Hos as [Ho Hos].
destruct (exec_guarded_keeps o g Ho Hi) as (Hi' & Hp & Hv).
destruct (IH (exec o g).1 Hos Hi' (exec_keysLower o g Hlow)) as (? & ? & Hp' & Hv').
change (run (o :: os) g) with (run os (exec o g).1).
split; [done|]. split; [done|]. by rewrite Hp', Hv'.
Qed.

(** X9: [Reload] forgets what was done in memory: on a store with its map
    in place and lowercase keys, after any sequence of calls other than
    [LoadFromPath] and [Dispose] it gives the same store and error as a
    [Reload] before them, namely those of [New] on the stored path and
    validator; in particular a second [Reload] changes nothing. *)
Theorem Reload_forgets_changes g os :
initialized g → keysLower g →
Forall (λ o, guarded o = true) os →
Reload (run os g) = Reload g ∧
Reload g = New (Path g) (ValidateConfigLine g) ∧
Reload (Reload g).1 = Reload g.
Proof.
intros Hi Hlow Hos.
destruct (run_guarded_keeps os g Hos Hi Hlow) as (Hi' & Hlow' & Hp & Hv).
split; [|split].
- rewrite !Reload_as_New by done. by rewrite Hp, Hv.
- by apply Reload_as_New.
- destruct (run_guarded_keeps [OpReload] g) as (Hi1 & Hlow1 & Hp1 & Hv1);
    [by repeat constructor|done..|].
  change (run [OpReload] g) with (exec OpReload g).1 in *.
  cbn [exec] in *. destruct (Reload g) as [g1 e1] eqn:Hr. cbn [fst] in *.
  rewrite (Reload_as_New g1) by done. rewrite Hp1, Hv1, <- Hr.
  symmetry. by apply Reload_as_New.
Qed.

(** X10: a [LoadFromPath] whose file cannot be opened reports the open
    error and leaves every entry readable as before, but it has already
    replaced the stored path: the next [Reload] clears the store, fails on
    the same file and leaves the store empty. *)
Theorem LoadFromPath_failure_moves_path g m bad :
GonfigurationValues g = Some m → keysLower g →
ReadLines bad = None →
LoadFromPath g bad = (setPath g bad, Some errorCantOpenFile) ∧
(∀ key def, GetParamAsString (LoadFromPath g bad).1 key def =
            GetParamAsString g key def) ∧
Reload (LoadFromPath g bad).1 =
  (mkGonfiguration (Some ∅) (ValidateConfigLine g) bad, Some errorCantOpenFile).
Proof.
intros Hm Hlow Hbad.
assert (LoadFromPath g bad = (setPath g bad, Some errorCantOpenFile)) as Hl.
{ unfold LoadFromPath. by rewrite Hbad. }
rewrite Hl. cbn [fst]. split; [done|]. split; [done|].
rewrite Reload_as_New.
- unfold New, LoadFromPath. cbn [setPath Path ValidateConfigLine].
  by rewrite Hbad.
- exists m. done.
- by apply keysLower_setPath.
Qed.

Lemma scanLines_all_present lines : ∀ g m,
GonfigurationValues g = Some m →
(∀ key, key ∈ (entries g lines).*1 → is_Some (m !! key)) →
scanLines g lines =
  (g, match entries g lines with [] => None | _ => Some errorDuplicatedEntry end).
Proof.
induction lines as [|l ls IH]; intros g m Hm Hall; [done|].
rewrite (scanLines_step _ m) by done. cbn [entries] in *.
destruct (isGonfigurationLine g l); [|by apply (IH _ m)].
rewrite bool_decide_eq_true_2; [done|].
apply Hall. cbn. apply elem_of_cons. by left.
Qed.

(** X11: [LoadFromPath] cannot be repeated: after a load without error, a
    second load of the same file into the same store fails with the
    duplicate-key error as soon as the file has one accepted line, and
    returns no error only when it has none; either way the store is left as
    the first load made it. *)
Theorem LoadFromPath_twice g m path lines g1 :
GonfigurationValues g = Some m →
ReadLines path = Some lines →
LoadFromPath g path = (g1, None) →
LoadFromPath g1 path =
  (g1, match entries g lines with [] => None | _ => Some errorDuplicatedEntry end).
Proof.
intros Hm Hfile Hload. unfold LoadFromPath in *. rewrite Hfile in *.
apply (scanLines_success _ _ m) in Hload as (-> & Hnd & Hnew); [|done].
rewrite entries_setPath in *.
change (setPath (setValues (setPath g path) ?x) path)
  with (setValues (setPath g path) x).
rewrite (scanLines_all_present lines _ (list_to_map (entries g lines) ∪ m));
  [|done|].
- by rewrite entries_setValues, entries_setPath.
- rewrite entries_setValues, entries_setPath. intros key Hin.
  apply lookup_union_is_Some. left.
  destruct (list_to_map (entries g lines) !! key) as [v|] eqn:Hk; [by eexists|].
  by apply not_elem_of_list_to_map in Hk.
Qed.

(** X12: a load without error adds one entry per accepted line: [Len]
    afterwards is [Len] before plus the number of accepted lines. *)
Theorem Len_after_load g m path lines g' :
GonfigurationValues g = Some m →
ReadLines path = Some lines →
LoadFromPath g path = (g', None) →
Len g' = ((Len g).1 + Z.of_nat (length (entries g lines)), None).
Proof.
intros Hm Hfile Hload. unfold LoadFromPath in *. rewrite Hfile in *.
apply (scanLines_success _ _ m) in Hload as (-> & Hnd & Hnew); [|done].
rewrite entries_setPath in *. unfold Len. rewrite Hm.
cbn [setValues GonfigurationValues fst].
assert ((list_to_map (entries g lines) : gmap string string) ##ₘ m) as Hdisj.
{ apply map_disjoint_spec. intros i x y Hx%elem_of_list_to_map_2 Hy.
  rewrite (Hnew i) in Hy; [done|].
  apply list_elem_of_fmap. by exists (i, x). }
rewrite map_size_disj_union, map_size_list_to_map by done.
f_equal. lia.
Qed.

Lemma clearLoop_cons k ks m :
clearLoop (k :: ks) m =
clearLoop ks (if bool_decide (is_Some (m !! k)) then delete (ToLower k) m else m).
Proof. reflexivity. Qed.

Lemma clearLoop_None ks : ∀ m j, m !! j = None → clearLoop ks m !! j = None.
Proof.
induction ks as [|k ks IH]; intros m j Hj; [done|].
rewrite clearLoop_cons. apply IH.
destruct (bool_decide (is_Some (m !! k))); [|done].
apply lookup_delete_None. by right.
Qed.

Lemma clearLoop_upper ks : ∀ m j, ToLower j ≠ j → clearLoop ks m !! j = m !! j.
Proof.
induction ks as [|k ks IH]; intros m j Hj; [done|].
rewrite clearLoop_cons, IH by done.
destruct (bool_decide (is_Some (m !! k))); [|done].
apply lookup_delete_ne. intros <-. by rewrite ToLower_idem in Hj.
Qed.

Lemma clearLoop_lower ks : ∀ m j,
ToLower j = j → j ∈ ks → clearLoop ks m !! j = None.
Proof.
induction ks as [|k ks IH]; intros m j Hj Hin; [by apply elem_of_nil in Hin|].
rewrite clearLoop_cons. apply elem_of_cons in Hin as [<-|Hin]; [|by apply IH].
apply clearLoop_None.
destruct (bool_decide_reflect (is_Some (m !! j))) as [|Hout].
- rewrite Hj. apply lookup_delete_eq.
- by apply eq_None_not_Some.
Qed.

(** X13: what [Clear] removes from an arbitrary map: since it deletes the
    lowercase form of each key it meets, it removes exactly the keys that are
    their own lowercase form and leaves every other key with its value (such
    keys can only come from writing to the exported map directly). *)
Theorem Clear_removes_lowercase_keys g m :
GonfigurationValues g = Some m →
∃ m', Clear g = (setValues g m', None) ∧
      ∀ key, m' !! key = if decide (ToLower key = key) then None else m !! key.
Proof.
intros Hm. unfold Clear. rewrite Hm. eexists. split; [done|].
intros key. destruct (decide (ToLower key = key)) as [Hlow|Hup].
- destruct (m !! key) as [v|] eqn:Hk.
  + apply clearLoop_lower; [done|]. apply map_keys_all. by eexists.
  + by apply clearLoop_None.
- by apply clearLoop_upper.
Qed.

(** X14: the error of [New] is decided by the file alone: none exactly when
    the file opens and the accepted lines have pairwise different lowercase
    keys, the open error exactly when the file does not open, the
    duplicate-key error exactly when it opens and two accepted lines share a
    lowercase key; [New] never returns the nil-store or key-not-found
    error. *)
Theorem New_error_cases path validate :
let g0 := mkGonfiguration (Some ∅) validate path in
((New path validate).2 = None ↔
 ∃ lines, ReadLines path = Some lines ∧ NoDup (entries g0 lines).*1) ∧
((New path validate).2 = Some errorCantOpenFile ↔ ReadLines path = None) ∧
((New path validate).2 = Some errorDuplicatedEntry ↔
 ∃ lines, ReadLines path = Some lines ∧ ¬ NoDup (entries g0 lines).*1) ∧
(New path validate).2 ≠ Some errorGonfigurationNil ∧
(New path validate).2 ≠ Some errorKeyNotFound.
Proof.
intros g0. unfold New, LoadFromPath. change (setPath _ path) with g0.
destruct (ReadLines path) as [lines|] eqn:Hfile.
- destruct (scanLines g0 lines) as [g' [e|]] eqn:Hrun; cbn [snd].
  + pose proof Hrun as Hrun'.
    apply (scanLines_error _ _ ∅) in Hrun as [-> _]; [|done].
    assert (¬ NoDup (entries g0 lines).*1) as Hdup.
    { intros Hnd. rewrite (scanLines_complete lines g0 ∅) in Hrun'; [done..|].
      intros key _. apply lookup_empty. }
    repeat split; try done.
    * intros (lines' & [= <-] & Hnd). done.
    * intros _. by exists lines.
  + apply (scanLines_success _ _ ∅) in Hrun as (_ & Hnd & _); [|done].
    repeat split; try done.
    * intros _. by exists lines.
    * intros (lines' & [= <-] & Hdup). done.
- cbn [snd]. repeat split; try done; by intros (lines & ? & _).
Qed.

(** *** [GetParamAsInt] on a decimal text *)

Lemma toSigned_small bits z :
bits = 32 ∨ bits = 64 →
- 2 ^ (bits - 1) ≤ z < 2 ^ (bits - 1) →
toSigned bits z = z.
Proof.
intros [-> | ->] Hz; unfold toSigned.
- change (2 ^ (32 - 1)) with 2147483648 in *.
  change (2 ^ 32) with 4294967296. rewrite Z.mod_small; lia.
- change (2 ^ (64 - 1)) with 9223372036854775808 in *.
  change (2 ^ 64) with 18446744073709551616. rewrite Z.mod_small; lia.
Qed.

Lemma digit_value c :
isDigit c = true →
0 ≤ byteVal c - 48 ≤ 9 ∧ (byteVal c - 48) mod 256 = byteVal c - 48.
Proof.
unfold isDigit. intros [H1 H2]%andb_prop.
apply Z.leb_le in H1, H2. split; [lia|]. apply Z.mod_small. lia.
Qed.

Lemma atoiDigits_value bits s :
bits = 32 ∨ bits = 64 →
∀ n, allDigits s = true →
     0 ≤ n →
     (n + 1) * 10 ^ Z.of_nat (String.length s) ≤ 2 ^ (bits - 1) →
     atoiDigits bits n s = (digitsValue n s, None) ∧
     0 ≤ digitsValue n s < 2 ^ (bits - 1).
Proof.
intros Hbits. induction s as [|c s IH]; intros n Hall Hn Hbound.
- cbn in *. split; [done|]. lia.
- cbn [allDigits] in Hall. apply andb_prop in Hall as [Hc Hall].
  cbn [atoiDigits digitsValue String.length] in *.
  rewrite digit_test, Hc. cbn [negb].
  destruct (digit_value c Hc) as [Hd ->].
  rewrite Nat2Z.inj_succ, Z.pow_succ_r in Hbound by lia.
  assert (1 ≤ 10 ^ Z.of_nat (String.length s)) as Hpow
    by (apply Z.lt_pred_le, Z.pow_pos_nonneg; lia).
  rewrite toSigned_small by (try done; nia).
  apply IH; [done|lia|nia].
Qed.

Lemma pow10_bound (len k : nat) :
(len ≤ k)%nat → 10 ^ Z.of_nat len ≤ 10 ^ Z.of_nat k.
Proof. intros H. apply Z.pow_le_mono_r; lia. Qed.

(** On the fast path a decimal text is read as the number it denotes. *)
Lemma Atoi_short_decimal bits s :
(bits = 32 ∧ (String.length s < 10)%nat) ∨
(bits = 64 ∧ (String.length s < 19)%nat) →
isDecimal s = true →
Atoi bits s = (decimalValue s, None) ∧
- 2 ^ (bits - 1) < decimalValue s < 2 ^ (bits - 1).
Proof.
intros Hshort Hdec. destruct s as [|c s]; [done|].
assert (bits = 32 ∨ bits = 64) as Hbits by (destruct Hshort as [[? _]|[? _]]; auto).
assert (((bits =? 32) &&
         ((0 <? Z.of_nat (String.length (String c s))) &&
          (Z.of_nat (String.length (String c s)) <? 10)) ||
         (bits =? 64) &&
         ((0 <? Z.of_nat (String.length (String c s))) &&
          (Z.of_nat (String.length (String c s)) <? 19))) = true) as Hfast.
{ apply orb_true_intro.
  destruct Hshort as [[-> Hlen]|[-> Hlen]]; [left|right];
    apply andb_true_intro; (split; [done|]);
    apply andb_true_intro; split; apply Z.ltb_lt;
    cbn [String.length] in *; lia. }
assert (∀ t, (String.length t ≤ String.length (String c s))%nat →
             1 * 10 ^ Z.of_nat (String.length t) ≤ 2 ^ (bits - 1)) as Hpow.
{ intros t Ht. rewrite Z.mul_1_l.
  destruct Hshort as [[-> Hlen]|[-> Hlen]].
  - etrans; [apply (pow10_bound _ 9); lia|]. by vm_compute.
  - etrans; [apply (pow10_bound _ 18); lia|]. by vm_compute. }
unfold Atoi. cbv zeta. rewrite Hfast. clear Hfast.
unfold isDecimal in Hdec. unfold decimalValue.
destruct (Ascii.eqb c "-") eqn:Hminus; [|destruct (Ascii.eqb c "+") eqn:Hplus];
  cbn [orb andb] in *.
- apply andb_prop in Hdec as [Hne Hall].
  destruct s as [|c' s']; [done|].
  cbn [String.length] in *. rewrite (proj2 (Z.ltb_ge _ _)) by lia.
  destruct (atoiDigits_value bits (String c' s') Hbits 0 Hall) as [-> Hrange];
    [lia|apply Hpow; cbn [String.length]; lia|].
  rewrite toSigned_small by (try done; lia). split; [done|lia].
- apply andb_prop in Hdec as [Hne Hall].
  destruct s as [|c' s']; [done|].
  cbn [String.length] in *. rewrite (proj2 (Z.ltb_ge _ _)) by lia.
  destruct (atoiDigits_value bits (String c' s') Hbits 0 Hall) as [-> Hrange];
    [lia|apply Hpow; cbn [String.length]; lia|].
  split; [done|lia].
- destruct (atoiDigits_value bits (String c s) Hbits 0 Hdec) as [-> Hrange];
    [lia|by apply Hpow|].
  split; [done|lia].
Qed.

(** X15: for a key that is present with a value of fewer than 10 bytes (19
    where [int] has 64 bits) made of an optional sign and decimal digits,
    [GetParamAsInt] returns the number the text denotes, without error and
    whatever the default; the number lies within the range of [int]. *)
Theorem GetParamAsInt_reads_decimal g m key val def :
GonfigurationValues g = Some m →
m !! ToLower key = Some val →
isDecimal val = true →
(intSize = 32 ∧ (String.length val < 10)%nat) ∨
(intSize = 64 ∧ (String.length val < 19)%nat) →
GetParamAsInt g key def = (decimalValue val, None) ∧
- 2 ^ (intSize - 1) < decimalValue val < 2 ^ (intSize - 1).
Proof.
intros Hm Hk Hdec Hshort.
destruct (Atoi_short_decimal intSize val Hshort Hdec) as [Hatoi Hrange].
split; [|done]. unfold GetParamAsInt. by rewrite Hm, Hk, Hatoi.
Qed.

(** *** [GetParamAsBool] *)

(** X22: for a key that is present [GetParamAsBool] ignores the default and
    returns true exactly when the stored value is the text true or the text
    1, byte for byte: unlike keys, values are not lowercased, so any other
    text gives false without error. *)
Theorem GetParamAsBool_true_iff g m key val def :
GonfigurationValues g = Some m →
m !! ToLower key = Some val →
(GetParamAsBool g key def).2 = None ∧
((GetParamAsBool g key def).1 = true ↔ val = "true" ∨ val = "1") ∧
(val ≠ "true" → val ≠ "1" → GetParamAsBool g key def = (false, None)) ∧
GetParamAsBool g key def = GetParamAsBool g key (negb def).
Proof.
intros Hm Hk. unfold GetParamAsBool. rewrite Hm, Hk. cbn [fst snd].
split; [done|]. split; [|split; [|done]].
- rewrite orb_true_iff, !String.eqb_eq. done.
- intros H1 H2. apply String.eqb_neq in H1, H2. by rewrite H1, H2.
Qed.

End Store.

(** ** The model on concrete inputs *)

Example Split_eq3 :
  Split explodeASCII "welcome.message=a=b=c" "=" = ["welcome.message"; "a"; "b"; "c"].
Proof. reflexivity. Qed.

Example Split_multi : Split explodeASCII "a--b---c--" "--" = ["a"; "b"; "-c"; EmptyString].
Proof. reflexivity. Qed.

Example Split_none : Split explodeASCII EmptyString "=" = [EmptyString].
Proof. reflexivity. Qed.

Example Atoi_3306 : Atoi 64 "3306" = (3306, None).
Proof. vm_compute. reflexivity. Qed.

Example Atoi_negative : Atoi 64 "-12" = (-12, None).
Proof. vm_compute. reflexivity. Qed.

Example Atoi_letters : Atoi 64 "abc" = (0, Some ErrSyntax).
Proof. vm_compute. reflexivity. Qed.

Example Atoi_empty : Atoi 64 EmptyString = (0, Some ErrSyntax).
Proof. vm_compute. reflexivity. Qed.

Example Atoi_minInt64 :
  Atoi 64 "-9223372036854775808" = (-9223372036854775808, None).
Proof. vm_compute. reflexivity. Qed.

Example Atoi_overflow64 :
  Atoi 64 "9223372036854775808" = (9223372036854775807, Some ErrRange).
Proof. vm_compute. reflexivity. Qed.

Example Atoi_overflow32 : Atoi 32 "2147483648" = (2147483647, Some ErrRange).
Proof. vm_compute. reflexivity. Qed.

Example Atoi_overflow_before_letter :
  Atoi 64 "99999999999999999999x" = (9223372036854775807, Some ErrRange).
Proof. vm_compute. reflexivity. Qed.

Lemma lowerByte_idem c : lowerByte (lowerByte c) = lowerByte c.
Proof. by destruct c as [[] [] [] [] [] [] [] []]. Qed.

Lemma ToLowerASCII_idem s : ToLowerASCII (ToLowerASCII s) = ToLowerASCII s.
Proof.
  induction s as [|c s IH]; [done|].
  cbn [ToLowerASCII]. by rewrite lowerByte_idem, IH.
Qed.

(** The session of the README on its configuration file. *)
Example readme_session :
  let g := (New ToLowerASCII explodeASCII sampleFiles "config.ini" None).1 in
  (New ToLowerASCII explodeASCII sampleFiles "config.ini" None).2 = None ∧
  GetParamAsString ToLowerASCII g "MYSQL.HOST" "DEFAULT" = ("localhost", None) ∧
  GetParamAsStringArray ToLowerASCII explodeASCII g
    "mysql.allowed.address" "DEFAULT1,DEFAULT2" "," =
    (["127.0.0.1"; "localhost"; "10.0.0.1"], None) ∧
  GetParamAsInt ToLowerASCII 64 g "mysql.port" 9999 = (3306, None) ∧
  GetParamAsIntArray ToLowerASCII explodeASCII 64 g
    "mysql.allowed.ports" "DEFAULT21,DEFAULT2" "," =
    ([3306; 1232; 1111; 9000], None) ∧
  GetParamAsBool ToLowerASCII g "chat.allowed" true = (true, Some errorKeyNotFound) ∧
  GetParamAsBool ToLowerASCII g "chat.enabled" false = (true, None) ∧
  GetParamAsString ToLowerASCII g "welcome.message" EmptyString =
    ("You can use spaces, =, @ or what you want here.", None) ∧
  Len g = (8, None) ∧
  Len (Clear ToLowerASCII g).1 = (0, None) ∧
  Len (Reload ToLowerASCII explodeASCII sampleFiles (Clear ToLowerASCII g).1).1 =
    (8, None).
Proof. vm_compute. repeat split; reflexivity. Qed.

(** ** The file behind a store *)

Section Files.

Variable ToLower : string → string.
Variable explode : string → list string.
Hypothesis ToLower_idem : ∀ s, ToLower (ToLower s) = ToLower s.

Lemma scanLines_rejected lines : ∀ g,
entries ToLower g lines = [] → scanLines ToLower explode g lines = (g, None).
Proof.
induction lines as [|l ls IH]; intros g He; [done|].
cbn [entries scanLines] in *.
destruct (isGonfigurationLine g l); [done|by apply IH].
Qed.

(** The loop sees a file through its accepted lines only. *)
Lemma scanLines_entries lines : ∀ lines' g m,
GonfigurationValues g = Some m →
entries ToLower g lines = entries ToLower g lines' →
scanLines ToLower explode g lines = scanLines ToLower explode g lines'.
Proof.
induction lines as [|l ls IH]; intros lines' g m Hm He.
- symmetry. rewrite scanLines_rejected; [done|by symmetry].
- rewrite (scanLines_step _ _ ToLower_idem _ m) by done.
  cbn [entries] in He.
  destruct (isGonfigurationLine g l) eqn:Hacc; [|by apply (IH _ _ m)].
  induction lines' as [|l' ls' IH']; [done|].
  rewrite (scanLines_step _ _ ToLower_idem _ m) by done.
  cbn [entries] in He.
  destruct (isGonfigurationLine g l') eqn:Hacc'; [|by apply IH'].
  injection He as Hk Hv He. rewrite Hk, Hv.
  destruct (bool_decide (is_Some (m !! lineKey ToLower l'))); [done|].
  apply (IH _ _ (<[lineKey ToLower l' := lineValue l']> m)); [done|].
  by rewrite !entries_setValues.
Qed.

Lemma entries_Permutation g lines lines' :
lines ≡ₚ lines' → entries ToLower g lines ≡ₚ entries ToLower g lines'.
Proof.
induction 1 as [|l ls ls' _ IH|l1 l2 ls|ls1 ls2 ls3 _ IH1 _ IH2]; cbn [entries].
- done.
- destruct (isGonfigurationLine g l); [by constructor|done].
- destruct (isGonfigurationLine g l1), (isGonfigurationLine g l2);
    try done. apply perm_swap.
- by etrans.
Qed.

(** X16: what [New] builds depends on the file through the entries of its
    accepted lines only.  Two files with the same accepted lines in the same
    order (whatever comments and blank lines lie between them) give the same
    store and the same error; when the load succeeds, the order of the
    accepted lines does not matter either. *)
Theorem New_depends_on_entries
  (R R' : string → option (list string)) path validate lines lines' :
let g0 := mkGonfiguration (Some ∅) validate path in
R path = Some lines →
R' path = Some lines' →
(entries ToLower g0 lines = entries ToLower g0 lines' →
 New ToLower explode R' path validate = New ToLower explode R path validate) ∧
((New ToLower explode R path validate).2 = None →
 entries ToLower g0 lines ≡ₚ entries ToLower g0 lines' →
 New ToLower explode R' path validate = New ToLower explode R path validate) ∧
((New ToLower explode R path validate).2 = None →
 lines ≡ₚ lines' →
 New ToLower explode R' path validate = New ToLower explode R path validate).
Proof.
intros g0 HR HR'.
assert ((New ToLower explode R path validate).2 = None →
 entries ToLower g0 lines ≡ₚ entries ToLower g0 lines' →
 New ToLower explode R' path validate = New ToLower explode R path validate)
  as Hperm.
{ unfold New, LoadFromPath. rewrite HR, HR'. change (setPath _ path) with g0.
  destruct (scanLines ToLower explode g0 lines) as [g' e] eqn:Hrun.
  cbn [snd]. intros -> Hp.
  apply (scanLines_success _ _ ToLower_idem _ _ ∅) in Hrun as (-> & Hnd & _);
    [|done].
  rewrite (scanLines_complete _ _ ToLower_idem lines' g0 ∅); [|done| |].
  - do 3 f_equal. symmetry. by apply list_to_map_proper.
  - by rewrite <- Hp.
  - intros key _. apply lookup_empty. }
split; [|split; [exact Hperm|]].
- intros He. unfold New, LoadFromPath. rewrite HR, HR'.
  change (setPath _ path) with g0.
  symmetry. by apply (scanLines_entries _ _ _ ∅).
- intros Hok Hp. apply Hperm; [done|]. by apply entries_Permutation.
Qed.


End Files.

(** ** The earlier versions against the current one *)

Section Versions.

Variable ToLower : string → string.
Variable explode : string → list string.
Variable ReadLines : string → option (list string).
Hypothesis ToLower_idem : ∀ s, ToLower (ToLower s) = ToLower s.

Lemma V2_scanLines_nil lines c :
V2.GonfigurationValues c = None →
V2.scanLines ToLower explode c lines =
  if existsb (V2.isGonfigurationLine c) lines then Panic else Done (c, None).
Proof.
intros Hc. induction lines as [|l ls IH]; [done|].
cbn [V2.scanLines existsb].
destruct (V2.isGonfigurationLine c l); [|done].
unfold V2.ContainsKey. by rewrite Hc.
Qed.

(** X18: [Reload] of the first [gonfiguration] on a store without a map
    (never made, or disposed) still opens the file; it reports the open
    error when that fails, returns no error when no line is accepted, and
    panics on the first accepted line, where it writes to the nil map.  The
    current [Reload] returns the nil-store error there. *)
Theorem V2_Reload_without_map c :
V2.GonfigurationValues c = None →
V2.Reload ToLower explode ReadLines c =
  match ReadLines (V2.FilePath c) with
  | None => Done (c, Some V2.errorCantOpenFile)
  | Some lines =>
      if existsb (V2.isGonfigurationLine c) lines then Panic else Done (c, None)
  end ∧
Reload ToLower explode ReadLines (V2_toCurrent c) =
  (V2_toCurrent c, Some errorGonfigurationNil).
Proof.
intros Hc. split.
- unfold V2.Reload, V2.Clear. rewrite Hc.
  destruct (ReadLines (V2.FilePath c)); [|done]. by apply V2_scanLines_nil.
- unfold Reload, V2_toCurrent. cbn [GonfigurationValues]. by rewrite Hc.
Qed.

Lemma V2_scanLines_current lines : ∀ c m,
V2.GonfigurationValues c = Some m →
∃ c' e,
  V2.scanLines ToLower explode c lines = Done (c', e) ∧
  scanLines ToLower explode (V2_toCurrent c) lines =
    (V2_toCurrent c', V2_errorToCurrent <$> e).
Proof.
induction lines as [|l ls IH]; intros c m Hm; [by exists c, None|].
rewrite (scanLines_step _ _ ToLower_idem _ m) by done.
cbn [V2.scanLines]. rewrite Split_key, Split_value.
change (V2.isGonfigurationLine c l)
  with (isGonfigurationLine (V2_toCurrent c) l).
destruct (isGonfigurationLine (V2_toCurrent c) l); [|by apply (IH _ m)].
unfold V2.ContainsKey. rewrite Hm, ToLower_idem.
fold (lineKey ToLower l). fold (lineValue l).
destruct (bool_decide (is_Some (m !! lineKey ToLower l))).
- by exists c, (Some V2.errorMapContainsEntry).
- exact (IH (V2.setValues c (<[lineKey ToLower l := lineValue l]> m)) _ eq_refl).
Qed.

(** X19: on a store with its map in place the first [gonfiguration]'s
    [Reload] never panics and does what the current [Reload] does: the same
    store afterwards and the same error (its map-contains-entry error being
    the duplicate-key error). *)
Theorem V2_Reload_agrees_with_current c m :
V2.GonfigurationValues c = Some m →
∃ c' e,
  V2.Reload ToLower explode ReadLines c = Done (c', e) ∧
  Reload ToLower explode ReadLines (V2_toCurrent c) =
    (V2_toCurrent c', V2_errorToCurrent <$> e).
Proof.
intros Hm. unfold V2.Reload, Reload, LoadFromPath, V2.Clear, Clear, V2_toCurrent.
cbn [GonfigurationValues]. rewrite Hm.
cbn [setValues setPath Path GonfigurationValues ValidateConfigLine
     V2.setValues V2.FilePath].
destruct (ReadLines (V2.FilePath c)) as [lines|].
- apply (V2_scanLines_current lines
           (V2.setValues c (V2.clearLoop ToLower (map_to_list m).*1 m)) _ eq_refl).
- by eexists _, (Some V2.errorCantOpenFile).
Qed.

(** X20: [DeleteEntry] of the first [gonfiguration] has no key-not-found
    case: on a store with its map in place it always returns no error, the
    key is absent afterwards and every other key is as before, deleting
    again changes nothing, and deleting an absent key returns the store as it
    was, where the current [Delete] reports the key-not-found error. *)
Theorem V2_DeleteEntry_never_fails c m key :
V2.GonfigurationValues c = Some m →
(V2.DeleteEntry ToLower c key).2 = None ∧
V2.ContainsKey ToLower (V2.DeleteEntry ToLower c key).1 key = false ∧
(∀ k, ToLower k ≠ ToLower key →
      V2.ContainsKey ToLower (V2.DeleteEntry ToLower c key).1 k =
      V2.ContainsKey ToLower c k) ∧
V2.DeleteEntry ToLower (V2.DeleteEntry ToLower c key).1 key =
  V2.DeleteEntry ToLower c key ∧
(m !! ToLower key = None →
 V2.DeleteEntry ToLower c key = (c, None) ∧
 Delete ToLower (V2_toCurrent c) key = (V2_toCurrent c, Some errorKeyNotFound)).
Proof.
intros Hm. unfold V2.DeleteEntry, V2.ContainsKey. rewrite Hm.
cbn [fst snd V2.setValues V2.GonfigurationValues V2.ValidateConfigLine V2.FilePath].
split; [done|]. split; [|split; [|split]].
- rewrite lookup_delete_eq. by rewrite bool_decide_eq_false_2 by by intros [? ?].
- intros k Hk. by rewrite lookup_delete_ne.
- by rewrite delete_delete_eq.
- intros Hout. split.
  + rewrite delete_id by done. destruct c; cbn in *; by subst.
  + unfold Delete, Contains, V2_toCurrent. cbn [GonfigurationValues].
    rewrite Hm, Hout. by rewrite bool_decide_eq_false_2 by by intros [? ?].
Qed.

Lemma V1_scanLines_last lines : ∀ c m,
V1.ConfigurationValues c = Some m →
∃ m',
  V1.scanLines ToLower explode c lines = Done (V1.setValues c m', None) ∧
  (∀ pre l post,
      lines = pre ++ l :: post →
      V1.isConfigurationLine c l = true →
      (∀ l', l' ∈ post → V1.isConfigurationLine c l' = true →
             lineKey ToLower l' ≠ lineKey ToLower l) →
      m' !! lineKey ToLower l = Some (lineValue l)) ∧
  (∀ key,
      (∀ l, l ∈ lines → V1.isConfigurationLine c l = true →
            lineKey ToLower l ≠ key) →
      m' !! key = m !! key).
Proof.
induction lines as [|l ls IH]; intros c m Hm.
- exists m. split; [|split].
  + destruct c; cbn in *; by subst.
  + intros [|? ?] ? ? [=].
  + done.
- cbn [V1.scanLines]. rewrite Split_key, Split_value, Hm.
  fold (lineKey ToLower l). fold (lineValue l).
  destruct (V1.isConfigurationLine c l) eqn:Hacc.
  + destruct (IH (V1.setValues c (<[lineKey ToLower l := lineValue l]> m))
                (<[lineKey ToLower l := lineValue l]> m) eq_refl)
      as (m' & Hrun & Hlast & Hother).
    exists m'. split; [exact Hrun|]. split.
    * intros [|l0 pre] l1 post [= <- Hls] Hl1 Hlater.
      -- subst post. rewrite Hother; [apply lookup_insert_eq|].
         intros l' Hin Hacc'. by apply Hlater.
      -- by apply (Hlast pre l1 post).
    * intros key Hkey. rewrite Hother.
      -- apply lookup_insert_ne. apply Hkey; [by left|done].
      -- intros l' Hin. apply Hkey. by right.
  + destruct (IH c m Hm) as (m' & Hrun & Hlast & Hother).
    exists m'. split; [exact Hrun|]. split.
    * intros [|l0 pre] l1 post [= <- Hls] Hl1 Hlater.
      -- by rewrite Hl1 in Hacc.
      -- by apply (Hlast pre l1 post).
    * intros key Hkey. apply Hother. intros l' Hin. apply Hkey. by right.
Qed.

(** X21: [Reload] of the package [configuration] has no duplicate check: on
    a store with its map in place and lowercase keys, when the file opens,
    it never fails; for every key the last accepted line that gives it wins,
    and no key is left that the file does not give. *)
Theorem V1_Reload_last_line_wins c m lines :
V1.ConfigurationValues c = Some m →
lowerKeys ToLower m →
ReadLines (V1.FilePath c) = Some lines →
∃ m',
  V1.Reload ToLower explode ReadLines c = Done (V1.setValues c m', None) ∧
  (∀ pre l post,
      lines = pre ++ l :: post →
      V1.isConfigurationLine c l = true →
      (∀ l', l' ∈ post → V1.isConfigurationLine c l' = true →
             lineKey ToLower l' ≠ lineKey ToLower l) →
      m' !! lineKey ToLower l = Some (lineValue l) ∧
      V1.GetConfigParamAsString ToLower (V1.setValues c m') (beforeFirstEq l) EmptyString =
        (lineValue l, None)) ∧
  (∀ key,
      (∀ l, l ∈ lines → V1.isConfigurationLine c l = true →
            lineKey ToLower l ≠ key) →
      m' !! key = None).
Proof.
intros Hm Hlow Hfile. unfold V1.Reload, V1.Clear. rewrite Hm.
change (V1.clearLoop ToLower) with (clearLoop ToLower).
rewrite clearLoop_all; [|done|apply map_keys_all].
cbn [V1.setValues V1.FilePath]. rewrite Hfile.
destruct (V1_scanLines_last lines (V1.setValues c ∅) ∅ eq_refl)
  as (m' & Hrun & Hlast & Hother).
exists m'. split; [exact Hrun|]. split.
- intros pre l post Hl Hacc Hlater.
  pose proof (Hlast pre l post Hl Hacc Hlater) as Hk.
  split; [exact Hk|].
  unfold V1.GetConfigParamAsString, V1.ContainsKey.
  cbn [V1.setValues V1.ConfigurationValues]. rewrite ToLower_idem.
  fold (lineKey ToLower l). rewrite Hk.
  by rewrite bool_decide_eq_true_2 by by eexists.
- intros key Hkey. rewrite Hother; [apply lookup_empty|exact Hkey].
Qed.

(** X23: on a store with its map in place the accessors and mutators of the
    first [gonfiguration] do what their successors in the current version
    do: the getters, [AddNewKeyValueEntry] ([AddNew]), [UpdateOrAddEntry]
    ([Update]), [ContainsKey] ([Contains]), [GetGonfigurationLen] ([Len]),
    [Clear], [GetMap] ([Map]) and [Dispose] give the same results and the
    same store. *)
Theorem V2_accessors_agree_with_current (intSize : Z) c m key :
V2.GonfigurationValues c = Some m →
(∀ def, GetParamAsString ToLower (V2_toCurrent c) key def =
        (λ r, (r.1, V2_errorToCurrent <$> r.2))
          (V2.GetConfigParamAsString ToLower c key def)) ∧
(∀ def, GetParamAsInt ToLower intSize (V2_toCurrent c) key def =
        (λ r, (r.1, V2_errorToCurrent <$> r.2))
          (V2.GetConfigParamAsInt ToLower intSize c key def)) ∧
(∀ def, GetParamAsBool ToLower (V2_toCurrent c) key def =
        (λ r, (r.1, V2_errorToCurrent <$> r.2))
          (V2.GetConfigParamAsBool ToLower c key def)) ∧
(∀ value, AddNew ToLower (V2_toCurrent c) key value =
          (λ r, (V2_toCurrent r.1, V2_errorToCurrent <$> r.2))
            (V2.AddNewKeyValueEntry ToLower c key value)) ∧
(∀ value, Update ToLower (V2_toCurrent c) key value =
          (λ r, (V2_toCurrent r.1, V2_errorToCurrent <$> r.2))
            (V2.UpdateOrAddEntry ToLower c key value)) ∧
Contains ToLower (V2_toCurrent c) key = (V2.ContainsKey ToLower c key, None) ∧
Len (V2_toCurrent c) =
  (λ r, (r.1, V2_errorToCurrent <$> r.2)) (V2.GetGonfigurationLen c) ∧
Clear ToLower (V2_toCurrent c) =
  (λ r, (V2_toCurrent r.1, V2_errorToCurrent <$> r.2)) (V2.Clear ToLower c) ∧
Map (V2_toCurrent c) = (V2.GetMap c, None) ∧
Dispose ToLower (V2_toCurrent c) = V2_toCurrent (V2.Dispose c).
Proof.
intros Hm.
unfold GetParamAsString, GetParamAsInt, GetParamAsBool, AddNew, Update,
  Contains, Len, Clear, Map, Dispose, Clear,
  V2.GetConfigParamAsString, V2.GetConfigParamAsInt, V2.GetConfigParamAsBool,
  V2.AddNewKeyValueEntry, V2.UpdateOrAddEntry, V2.ContainsKey,
  V2.GetGonfigurationLen, V2.Clear, V2.GetMap, V2.Dispose, V2_toCurrent.
cbn [GonfigurationValues]. rewrite Hm, ToLower_idem.
destruct (m !! ToLower key) as [val|] eqn:Hk.
- rewrite bool_decide_eq_true_2 by by eexists.
  cbn [negb fst snd default].
  repeat split; intros; rewrite ?Hm; unfold id;
    try destruct (Atoi intSize val); done.
- rewrite bool_decide_eq_false_2 by by intros [? ?].
  cbn [negb fst snd default].
  repeat split; intros; rewrite ?Hm; done.
Qed.

(** X24: [ChangePathAndReload] of the first [gonfiguration], on a store
    with its map in place, is [Clear] followed by [LoadFromPath] on the new
    path in the current version: the same store and the same error. *)
Theorem V2_ChangePathAndReload_agrees_with_current c m newPath :
V2.GonfigurationValues c = Some m →
∃ c' e,
  V2.ChangePathAndReload ToLower explode ReadLines c newPath = Done (c', e) ∧
  LoadFromPath ToLower explode ReadLines
    (Clear ToLower (V2_toCurrent c)).1 newPath =
    (V2_toCurrent c', V2_errorToCurrent <$> e).
Proof.
intros Hm.
unfold V2.ChangePathAndReload, V2.Reload, LoadFromPath, V2.Clear, Clear, V2_toCurrent.
cbn [GonfigurationValues V2.GonfigurationValues]. rewrite Hm.
cbn [fst setValues setPath Path GonfigurationValues ValidateConfigLine
     V2.setValues V2.FilePath V2.ValidateConfigLine].
destruct (ReadLines newPath) as [lines|].
- apply (V2_scanLines_current lines
           (V2.mkGonfiguration
              (Some (V2.clearLoop ToLower (map_to_list m).*1 m))
              (V2.ValidateConfigLine c) newPath) _ eq_refl).
- by eexists _, (Some V2.errorCantOpenFile).
Qed.

End Versions.

(** ** The theorems at concrete stores and files *)

Lemma C1_witness :
  let g' := (LoadFromPath ToLowerASCII explodeASCII sampleFiles
               (mkGonfiguration (Some ∅) None "old.ini") "config.ini").1 in
  (∃ m', GonfigurationValues g' = Some m' ∧
         m' !! "mysql.allowed.address" = Some "127.0.0.1,localhost,10.0.0.1") ∧
  GetParamAsString ToLowerASCII g' "mysql.allowed.address" "x" =
    ("127.0.0.1,localhost,10.0.0.1", None).
Proof.
  intros g'.
  destruct (proj1 (C1_load_stores_key_and_value
                      ToLowerASCII explodeASCII sampleFiles ToLowerASCII_idem)
               (mkGonfiguration (Some ∅) None "old.ini") ∅ "config.ini"
               (default [] (sampleFiles "config.ini")) g'
               "mysql.allowed.address=127.0.0.1,localhost,10.0.0.1" "x")
    as (_ & _ & _ & _ & Hmap & Hget).
  - reflexivity.
  - reflexivity.
  - vm_compute. reflexivity.
  - repeat constructor.
  - reflexivity.
  - split; [exact Hmap|exact Hget].
Defined.

Lemma C2_witness :
  LoadFromPath ToLowerASCII explodeASCII sampleFiles
    (mkGonfiguration (Some ∅) None "old.ini") "dup.ini" =
  (mkGonfiguration (Some (list_to_map [("a", "1"); ("b", "2")] ∪ ∅)) None "dup.ini",
   Some errorDuplicatedEntry).
Proof.
  refine (proj2 (C2_duplicate_key_stops_load
                   ToLowerASCII explodeASCII sampleFiles ToLowerASCII_idem
                   (mkGonfiguration (Some ∅) None "old.ini") ∅ "dup.ini" eq_refl)
            ["a=1"; "b=2"] "A=3" ["c=4"] eq_refl _ _ eq_refl _).
  - apply (bool_decide_unpack _). vm_compute. exact I.
  - intros key _. apply lookup_empty.
  - left. apply (bool_decide_unpack _). vm_compute. exact I.
Defined.

Lemma C3_witness :
  keysLower ToLowerASCII
    (New ToLowerASCII explodeASCII sampleFiles "config.ini" None).1 ∧
  ∀ g, GetParamAsString ToLowerASCII g "MYSQL.HOST" "x" =
       GetParamAsString ToLowerASCII g "mysql.host" "x".
Proof.
  destruct (C3_keys_case_normalized
              ToLowerASCII explodeASCII 64 sampleFiles ToLowerASCII_idem)
    as (Hnew & _ & _ & Hcase & _).
  split; [apply Hnew|].
  intros g. destruct (Hcase g "MYSQL.HOST" "mysql.host" eq_refl) as (Hget & _).
  apply Hget.
Defined.

Lemma C4_witness :
  GetParamAsString ToLowerASCII (mkGonfiguration (Some ∅) None "old.ini")
    "missing" "d1,d2" = ("d1,d2", Some errorKeyNotFound) ∧
  GetParamAsStringArray ToLowerASCII explodeASCII (mkGonfiguration (Some ∅) None "old.ini")
    "missing" "d1,d2" "," = (["d1"; "d2"], Some errorKeyNotFound).
Proof.
  exact (proj1 (C4_missing_key_returns_default ToLowerASCII explodeASCII)
           (mkGonfiguration (Some ∅) None "old.ini") ∅ "missing" "d1,d2" ","
           eq_refl (lookup_empty _)).
Defined.

Lemma C5_witness :
  let g := mkGonfiguration (Some {["chat.asymetric" := "true"]}) None "old.ini" in
  AddNew ToLowerASCII g "Chat.Asymetric" "false" = (g, Some errorDuplicatedEntry) ∧
  GetParamAsString ToLowerASCII (AddNew ToLowerASCII g "Chat.Asymetric" "false").1
    "chat.asymetric" EmptyString = ("true", None).
Proof.
  intros g.
  refine (proj1 (C5_AddNew_rejects_existing_key ToLowerASCII)
            g {["chat.asymetric" := "true"]} "chat.asymetric" "Chat.Asymetric"
            "false" "true" EmptyString eq_refl _ eq_refl).
  apply lookup_singleton_eq.
Defined.

Lemma C6_witness :
  initialized (New ToLowerASCII explodeASCII sampleFiles "dup.ini" None).1 ∧
  initialized (New ToLowerASCII explodeASCII sampleFiles "absent.ini" None).1.
Proof.
  split.
  - destruct (C6_New_returns_store_and_error
                ToLowerASCII explodeASCII sampleFiles ToLowerASCII_idem
                "dup.ini" None) as (m & Hg & _).
    rewrite Hg. by exists m.
  - destruct (C6_New_returns_store_and_error
                ToLowerASCII explodeASCII sampleFiles ToLowerASCII_idem
                "absent.ini" None) as (m & Hg & _).
    rewrite Hg. by exists m.
Defined.

Lemma C7_witness :
  GetParamAsInt ToLowerASCII 64
    (mkGonfiguration (Some {["mysql.port" := "abc"]}) None "old.ini") "mysql.port" 9999 =
  (0, None).
Proof.
  destruct (C7_GetParamAsInt_drops_parse_error ToLowerASCII 64
              (mkGonfiguration (Some {["mysql.port" := "abc"]}) None "old.ini")
              {["mysql.port" := "abc"]} "mysql.port" 9999
              (or_intror eq_refl) eq_refl) as [Hpresent _].
  destruct (Hpresent "abc" (lookup_singleton_eq _ _)) as (_ & _ & _ & Hzero).
  apply Hzero; [reflexivity|]. right. split; [reflexivity|]. cbn. lia.
Defined.

Lemma C8_witness :
  let g := (New ToLowerASCII explodeASCII sampleFiles "config.ini" None).1 in
  Reload ToLowerASCII explodeASCII sampleFiles g =
    Reload_spec ToLowerASCII explodeASCII sampleFiles g ∧
  Len (Clear ToLowerASCII g).1 = (0, None) ∧
  Len (Reload ToLowerASCII explodeASCII sampleFiles (Clear ToLowerASCII g).1).1 =
    Len g.
Proof.
  intros g.
  destruct (C8_Reload_is_Clear_then_LoadFromPath
              ToLowerASCII explodeASCII sampleFiles ToLowerASCII_idem)
    as (Hspec & _ & Hcount).
  split.
  - apply Hspec. eexists. vm_compute. reflexivity.
  - destruct (Hcount "config.ini" None) as (Hzero & _ & Hlen). by split.
Defined.

Lemma C9_witness :
  let d := Dispose ToLowerASCII
             (New ToLowerASCII explodeASCII sampleFiles "config.ini" None).1 in
  exec ToLowerASCII explodeASCII 64 sampleFiles OpLen d =
    (d, RetInt 0 (Some errorGonfigurationNil)) ∧
  exec ToLowerASCII explodeASCII 64 sampleFiles OpReload d =
    (d, RetError (Some errorGonfigurationNil)).
Proof.
  intros d.
  destruct (C9_disposed_is_terminal ToLowerASCII explodeASCII 64 sampleFiles
              (New ToLowerASCII explodeASCII sampleFiles "config.ini" None).1)
    as (_ & Hnil & _).
  split; [exact (Hnil OpLen eq_refl)|exact (Hnil OpReload eq_refl)].
Defined.

Lemma C10_witness :
  let g := mkGonfiguration (Some {["b" := "0"]}) None "old.ini" in
  (LoadFromPath ToLowerASCII explodeASCII sampleFiles g "dup.ini").2 =
    Some errorDuplicatedEntry ∧
  ∃ m', GonfigurationValues
          (LoadFromPath ToLowerASCII explodeASCII sampleFiles g "dup.ini").1 = Some m' ∧
        m' !! "b" = Some "0".
Proof.
  intros g.
  destruct (C10_LoadFromPath_keeps_entries
              ToLowerASCII explodeASCII sampleFiles ToLowerASCII_idem
              g {["b" := "0"]} "dup.ini" eq_refl) as [(m' & Hm' & Hkeep) Hdup].
  split.
  - apply (Hdup ["a=1"; "b=2"; "A=3"; "c=4"] "b=2"); [reflexivity| |reflexivity|].
    + repeat constructor.
    + exists "0". apply lookup_singleton_eq.
  - exists m'. split; [exact Hm'|]. apply Hkeep. apply lookup_singleton_eq.
Defined.

(** ** Where two sentences of the description and the code part *)

(** C6, as the description words it, fails: a load that stops on a duplicate
    key leaves the entries read so far in the store [New] returns. *)
Lemma C6_counterexample :
  ¬ (∀ (ReadLines : string → option (list string)) path validate,
        (New ToLowerASCII explodeASCII ReadLines path validate).2 ≠ None →
        Len (New ToLowerASCII explodeASCII ReadLines path validate).1 = (0, None)).
Proof.
  intros H. specialize (H sampleFiles "dup.ini" None).
  assert ((New ToLowerASCII explodeASCII sampleFiles "dup.ini" None).2 =
          Some errorDuplicatedEntry) as Herr by (vm_compute; reflexivity).
  assert (Len (New ToLowerASCII explodeASCII sampleFiles "dup.ini" None).1 =
          (2, None)) as Hlen by (vm_compute; reflexivity).
  rewrite Herr, Hlen in H. discriminate H. discriminate.
Qed.

(** C7, as the description words it, fails: a stored value that is no
    integer can still make [Atoi] report a range error, and then the result
    is the largest [int], not 0. *)
Lemma C7_counterexample :
  ¬ (∀ g m key val def,
        GonfigurationValues g = Some m →
        m !! ToLowerASCII key = Some val →
        isDecimal val = false →
        GetParamAsInt ToLowerASCII 64 g key def = (0, None)).
Proof.
  intros H.
  specialize (H (mkGonfiguration (Some {["n" := "99999999999999999999x"]}) None "old.ini")
                {["n" := "99999999999999999999x"]} "n"
                "99999999999999999999x" 0 eq_refl (lookup_singleton_eq _ _) eq_refl).
  assert (GetParamAsInt ToLowerASCII 64
            (mkGonfiguration (Some {["n" := "99999999999999999999x"]}) None "old.ini")
            "n" 0 = (9223372036854775807, None)) as Hval
    by (vm_compute; reflexivity).
  rewrite Hval in H. discriminate H.
Qed.

(** ** The further properties at concrete stores and files *)

Lemma Update_upsert_witness :
  let g := mkGonfiguration (Some {["chat.asymetric" := "true"]}) None "old.ini" in
  GetParamAsString ToLowerASCII
    (Update ToLowerASCII g "Chat.Asymetric" "false").1 "CHAT.ASYMETRIC" "x" =
    ("false", None) ∧
  Len (Update ToLowerASCII g "Chat.Asymetric" "false").1 = (1, None).
Proof.
  intros g.
  destruct (Update_upsert ToLowerASCII g {["chat.asymetric" := "true"]}
              "Chat.Asymetric" "false" eq_refl) as (_ & Hsame & _ & Hlen & _).
  split; [exact (Hsame "CHAT.ASYMETRIC" "x" eq_refl)|exact Hlen].
Defined.

Lemma Delete_removes_one_entry_witness :
  let g := mkGonfiguration (Some {["chat.asymetric" := "true"]}) None "old.ini" in
  (Delete ToLowerASCII g "Chat.Asymetric").2 = None ∧
  Delete ToLowerASCII (Delete ToLowerASCII g "Chat.Asymetric").1 "Chat.Asymetric" =
    ((Delete ToLowerASCII g "Chat.Asymetric").1, Some errorKeyNotFound).
Proof.
  intros g.
  destruct (proj1 (Delete_removes_one_entry ToLowerASCII g
                     {["chat.asymetric" := "true"]} "Chat.Asymetric" eq_refl))
    as (Hok & _ & _ & _ & Hagain).
  - exists "true". apply lookup_singleton_eq.
  - split; [exact Hok|exact Hagain].
Defined.

Lemma AddNew_Delete_inverse_witness :
  let g := mkGonfiguration (Some {["a" := "1"]}) None "old.ini" in
  Delete ToLowerASCII (AddNew ToLowerASCII g "Key" "v").1 "KEY" = (g, None) ∧
  AddNew ToLowerASCII (Delete ToLowerASCII g "a").1 "A" "1" = (g, None).
Proof.
  intros g. split.
  - destruct (AddNew_Delete_inverse ToLowerASCII g {["a" := "1"]} "Key" "KEY"
                eq_refl eq_refl) as [Hadd _].
    apply (Hadd "v"). apply lookup_singleton_ne. discriminate.
  - destruct (AddNew_Delete_inverse ToLowerASCII g {["a" := "1"]} "a" "A"
                eq_refl eq_refl) as [_ Hdel].
    apply (Hdel "1"). apply lookup_singleton_eq.
Defined.

Lemma Update_composition_witness :
  let g := mkGonfiguration (Some {["a" := "1"]}) None "old.ini" in
  Update ToLowerASCII g "b" "2" = AddNew ToLowerASCII g "b" "2" ∧
  Update ToLowerASCII (Update ToLowerASCII g "a" "2").1 "A" "3" =
    Update ToLowerASCII g "A" "3".
Proof.
  intros g.
  destruct (Update_composition ToLowerASCII g {["a" := "1"]} "b" "2" eq_refl)
    as (Habsent & _).
  destruct (Update_composition ToLowerASCII g {["a" := "1"]} "a" "2" eq_refl)
    as (_ & _ & Hlast & _).
  split.
  - apply Habsent. apply lookup_singleton_ne. discriminate.
  - apply Hlast. reflexivity.
Defined.

Lemma Contains_decides_keyed_calls_witness :
  let g := (New ToLowerASCII explodeASCII sampleFiles "config.ini" None).1 in
  GetParamAsIntArray ToLowerASCII explodeASCII 64 g "chat.allowed" "1,x,3" "," =
    ([1; 0; 3], Some errorKeyNotFound).
Proof.
  intros g.
  destruct (Contains_decides_keyed_calls ToLowerASCII explodeASCII 64 g
              "chat.allowed") as (_ & _ & Hmissing).
  - eexists. vm_compute. reflexivity.
  - destruct Hmissing as (_ & _ & _ & Hints & _); [by vm_compute|].
    exact (Hints "1,x,3" ",").
Defined.

Lemma default_validator_accepts_witness :
  isGonfigurationLine (mkGonfiguration (Some ∅) None "old.ini")
    " #not a comment=1" = true.
Proof.
  apply (proj1 (default_validator_accepts
                  (mkGonfiguration (Some ∅) None "old.ini")
                  " #not a comment=1")); [reflexivity|].
  split; [reflexivity|]. intros [rest Hrest]. discriminate Hrest.
Defined.

Lemma GetParamAsStringArray_pieces_witness :
  let g := (New ToLowerASCII explodeASCII sampleFiles "config.ini" None).1 in
  Join (GetParamAsStringArray ToLowerASCII explodeASCII g
          "mysql.allowed.address" "x" ", ").1 ", " =
    "127.0.0.1,localhost,10.0.0.1".
Proof.
  intros g.
  destruct (GetParamAsStringArray_pieces ToLowerASCII explodeASCII 64 g
              (default ∅ (GonfigurationValues g)) "mysql.allowed.address"
              "127.0.0.1,localhost,10.0.0.1" "x" ", ")
    as (_ & _ & Hjoin & _).
  - vm_compute. reflexivity.
  - vm_compute. reflexivity.
  - discriminate.
  - exact Hjoin.
Defined.

Lemma array_getters_without_separator_witness :
  let g := (New ToLowerASCII explodeASCII sampleFiles "config.ini" None).1 in
  GetParamAsIntArray ToLowerASCII explodeASCII 64 g "mysql.port" "x" "," =
    ([(GetParamAsInt ToLowerASCII 64 g "mysql.port" 9999).1], None).
Proof.
  intros g.
  destruct (array_getters_without_separator ToLowerASCII explodeASCII 64 g
              (default ∅ (GonfigurationValues g)) "mysql.port" "3306" ",")
    as [_ Hints].
  - vm_compute. reflexivity.
  - vm_compute. reflexivity.
  - discriminate.
  - reflexivity.
  - exact (Hints "x" 9999).
Defined.

Lemma Reload_forgets_changes_witness :
  let g := (New ToLowerASCII explodeASCII sampleFiles "config.ini" None).1 in
  Reload ToLowerASCII explodeASCII sampleFiles
    (run ToLowerASCII explodeASCII 64 sampleFiles
       [OpAddNew "chat.asymetric" "true"; OpDelete "mysql.host"; OpClear] g) =
  Reload ToLowerASCII explodeASCII sampleFiles g.
Proof.
  intros g.
  destruct (Reload_forgets_changes ToLowerASCII explodeASCII 64 sampleFiles
              ToLowerASCII_idem g
              [OpAddNew "chat.asymetric" "true"; OpDelete "mysql.host"; OpClear])
    as (Hsame & _).
  - eexists. vm_compute. reflexivity.
  - apply New_keysLower, ToLowerASCII_idem.
  - repeat constructor.
  - exact Hsame.
Defined.

Lemma LoadFromPath_failure_moves_path_witness :
  let g := (New ToLowerASCII explodeASCII sampleFiles "config.ini" None).1 in
  Reload ToLowerASCII explodeASCII sampleFiles
    (LoadFromPath ToLowerASCII explodeASCII sampleFiles g "absent.ini").1 =
  (mkGonfiguration (Some ∅) None "absent.ini", Some errorCantOpenFile).
Proof.
  intros g.
  destruct (LoadFromPath_failure_moves_path ToLowerASCII explodeASCII sampleFiles
              g (default ∅ (GonfigurationValues g)) "absent.ini")
    as (_ & _ & Hreload).
  - vm_compute. reflexivity.
  - apply New_keysLower, ToLowerASCII_idem.
  - reflexivity.
  - exact Hreload.
Defined.

Lemma LoadFromPath_twice_witness :
  let g := (New ToLowerASCII explodeASCII sampleFiles "config.ini" None).1 in
  LoadFromPath ToLowerASCII explodeASCII sampleFiles g "config.ini" =
    (g, Some errorDuplicatedEntry).
Proof.
  intros g.
  exact (LoadFromPath_twice ToLowerASCII explodeASCII sampleFiles ToLowerASCII_idem
           (mkGonfiguration (Some ∅) None "config.ini") ∅ "config.ini"
           (default [] (sampleFiles "config.ini")) g
           eq_refl eq_refl eq_refl).
Defined.

Lemma Len_after_load_witness :
  Len (LoadFromPath ToLowerASCII explodeASCII sampleFiles
         (mkGonfiguration (Some {["x" := "0"]}) None "old.ini") "config.ini").1 =
    (9, None).
Proof.
  exact (Len_after_load ToLowerASCII explodeASCII sampleFiles ToLowerASCII_idem
           (mkGonfiguration (Some {["x" := "0"]}) None "old.ini") {["x" := "0"]}
           "config.ini" (default [] (sampleFiles "config.ini")) _
           eq_refl eq_refl eq_refl).
Defined.

Lemma Clear_removes_lowercase_keys_witness :
  let g := mkGonfiguration (Some {["a" := "1"; "B" := "2"]}) None "old.ini" in
  ∃ m', Clear ToLowerASCII g = (setValues g m', None) ∧
        m' !! "a" = None ∧ m' !! "B" = Some "2".
Proof.
  intros g.
  destruct (Clear_removes_lowercase_keys ToLowerASCII ToLowerASCII_idem g
              {["a" := "1"; "B" := "2"]} eq_refl) as (m' & Hclear & Hkeys).
  exists m'. split; [exact Hclear|].
  split; [exact (Hkeys "a")|].
  rewrite (Hkeys "B"). reflexivity.
Defined.

Lemma New_error_cases_witness :
  (New ToLowerASCII explodeASCII sampleFiles "dup.ini" None).2 =
    Some errorDuplicatedEntry ∧
  (New ToLowerASCII explodeASCII sampleFiles "absent.ini" None).2 =
    Some errorCantOpenFile.
Proof.
  split.
  - destruct (New_error_cases ToLowerASCII explodeASCII sampleFiles
                ToLowerASCII_idem "dup.ini" None) as (_ & _ & Hdup & _).
    apply Hdup. exists ["a=1"; "b=2"; "A=3"; "c=4"]. split; [reflexivity|].
    intros Hnd. apply (bool_decide_pack _) in Hnd. by vm_compute in Hnd.
  - destruct (New_error_cases ToLowerASCII explodeASCII sampleFiles
                ToLowerASCII_idem "absent.ini" None) as (_ & Hopen & _).
    apply Hopen. reflexivity.
Defined.

Lemma GetParamAsInt_reads_decimal_witness :
  GetParamAsInt ToLowerASCII 64
    (mkGonfiguration (Some {["tcp.port" := "-30000"]}) None "old.ini")
    "TCP.Port" 7 = (-30000, None).
Proof.
  destruct (GetParamAsInt_reads_decimal ToLowerASCII 64
              (mkGonfiguration (Some {["tcp.port" := "-30000"]}) None "old.ini")
              {["tcp.port" := "-30000"]} "TCP.Port" "-30000" 7)
    as [Hval _].
  - reflexivity.
  - apply lookup_singleton_eq.
  - reflexivity.
  - right. split; [reflexivity|]. cbn. lia.
  - exact Hval.
Defined.

Lemma New_depends_on_entries_witness :
  New ToLowerASCII explodeASCII sampleFilesReversed "config.ini" None =
  New ToLowerASCII explodeASCII sampleFiles "config.ini" None.
Proof.
  destruct (New_depends_on_entries ToLowerASCII explodeASCII ToLowerASCII_idem
              sampleFiles sampleFilesReversed "config.ini" None
              (default [] (sampleFiles "config.ini"))
              (reverse (default [] (sampleFiles "config.ini")))
              eq_refl eq_refl) as (_ & _ & Horder).
  apply Horder.
  - vm_compute. reflexivity.
  - symmetry. apply reverse_Permutation.
Defined.


Lemma V2_Reload_without_map_witness :
  V2.Reload ToLowerASCII explodeASCII sampleFiles
    (V2.mkGonfiguration None None "config.ini") = Panic ∧
  V2.Reload ToLowerASCII explodeASCII sampleFiles
    (V2.mkGonfiguration None None "absent.ini") =
    Done (V2.mkGonfiguration None None "absent.ini", Some V2.errorCantOpenFile).
Proof.
  split.
  - exact (proj1 (V2_Reload_without_map ToLowerASCII explodeASCII sampleFiles
                    (V2.mkGonfiguration None None "config.ini") eq_refl)).
  - exact (proj1 (V2_Reload_without_map ToLowerASCII explodeASCII sampleFiles
                    (V2.mkGonfiguration None None "absent.ini") eq_refl)).
Defined.

Lemma V2_Reload_agrees_with_current_witness :
  let c := V2.mkGonfiguration (Some {["x" := "0"]}) None "dup.ini" in
  ∃ c' e,
    V2.Reload ToLowerASCII explodeASCII sampleFiles c = Done (c', e) ∧
    Reload ToLowerASCII explodeASCII sampleFiles (V2_toCurrent c) =
      (V2_toCurrent c', V2_errorToCurrent <$> e).
Proof.
  intros c.
  exact (V2_Reload_agrees_with_current ToLowerASCII explodeASCII sampleFiles
           ToLowerASCII_idem c {["x" := "0"]} eq_refl).
Defined.

Lemma V2_DeleteEntry_never_fails_witness :
  let c := V2.mkGonfiguration (Some {["a" := "1"]}) None "old.ini" in
  V2.DeleteEntry ToLowerASCII c "missing" = (c, None) ∧
  Delete ToLowerASCII (V2_toCurrent c) "missing" =
    (V2_toCurrent c, Some errorKeyNotFound).
Proof.
  intros c.
  destruct (V2_DeleteEntry_never_fails ToLowerASCII c {["a" := "1"]} "missing"
              eq_refl) as (_ & _ & _ & _ & Habsent).
  apply Habsent. apply lookup_singleton_ne. discriminate.
Defined.

Lemma V1_Reload_last_line_wins_witness :
  let c := V1.mkConfiguration (Some ∅) None "dup.ini" in
  ∃ m',
    V1.Reload ToLowerASCII explodeASCII sampleFiles c =
      Done (V1.setValues c m', None) ∧
    m' !! "a" = Some "3".
Proof.
  intros c.
  destruct (V1_Reload_last_line_wins ToLowerASCII explodeASCII sampleFiles
              ToLowerASCII_idem c ∅ ["a=1"; "b=2"; "A=3"; "c=4"]
              eq_refl (lowerKeys_empty ToLowerASCII) eq_refl)
    as (m' & Hrun & Hlast & _).
  exists m'. split; [exact Hrun|].
  destruct (Hlast ["a=1"; "b=2"] "A=3" ["c=4"] eq_refl eq_refl) as [Hk _].
  - intros l' Hin _. apply list_elem_of_singleton in Hin as ->. discriminate.
  - exact Hk.
Defined.

Lemma GetParamAsBool_true_iff_witness :
  GetParamAsBool ToLowerASCII
    (mkGonfiguration (Some {["chat.enabled" := "TRUE"]}) None "old.ini")
    "chat.enabled" true = (false, None).
Proof.
  destruct (GetParamAsBool_true_iff ToLowerASCII
              (mkGonfiguration (Some {["chat.enabled" := "TRUE"]}) None "old.ini")
              {["chat.enabled" := "TRUE"]} "chat.enabled" "TRUE" true
              eq_refl (lookup_singleton_eq _ _)) as (_ & _ & Hfalse & _).
  apply Hfalse; discriminate.
Defined.

Lemma V2_accessors_agree_with_current_witness :
  let c := V2.mkGonfiguration (Some {["mysql.port" := "3306"]}) None "old.ini" in
  GetParamAsInt ToLowerASCII 64 (V2_toCurrent c) "MySQL.Port" 0 =
    ((V2.GetConfigParamAsInt ToLowerASCII 64 c "MySQL.Port" 0).1, None) ∧
  AddNew ToLowerASCII (V2_toCurrent c) "MySQL.Port" "1" =
    (V2_toCurrent c, Some errorDuplicatedEntry).
Proof.
  intros c.
  destruct (V2_accessors_agree_with_current ToLowerASCII ToLowerASCII_idem 64 c
              {["mysql.port" := "3306"]} "MySQL.Port" eq_refl)
    as (_ & Hint & _ & Hadd & _).
  split; [exact (Hint 0)|exact (Hadd "1")].
Defined.

Lemma V2_ChangePathAndReload_agrees_with_current_witness :
  let c := V2.mkGonfiguration (Some {["x" := "0"]}) None "old.ini" in
  ∃ c' e,
    V2.ChangePathAndReload ToLowerASCII explodeASCII sampleFiles c "config.ini" =
      Done (c', e) ∧
    LoadFromPath ToLowerASCII explodeASCII sampleFiles
      (Clear ToLowerASCII (V2_toCurrent c)).1 "config.ini" =
      (V2_toCurrent c', V2_errorToCurrent <$> e).
Proof.
  intros c.
  exact (V2_ChangePathAndReload_agrees_with_current
           ToLowerASCII explodeASCII sampleFiles ToLowerASCII_idem
           c {["x" := "0"]} "config.ini" eq_refl).
Defined.
